(** * errcheck.h: fail-fast checked calls with fault injection

    A shallow embedding of the macros of [errcheck.h] and of the example
    programs that use them.  A macro that expands to a statement becomes a
    state transformer that either falls through to the next statement or
    leaves the enclosing function with a return value. *)

From Stdlib Require Import ZArith List Bool Lia String.
Import ListNotations.
Local Open Scope Z_scope.

Module Errcheck.

(** ** Integer types of the header *)

(** [uint8_t]: conversion of an [int] value wraps modulo 2^8. *)
Definition to_uint8 (z : Z) : Z := z mod 256.

Definition is_uint8 (z : Z) : Prop := 0 <= z < 256.

(** [typedef uint8_t err_t;] *)
Definition to_err_t (z : Z) : Z := to_uint8 z.

Definition is_err_t (z : Z) : Prop := is_uint8 z.

(** [#define ERR_FAILURE ((err_t)0xFF)] *)
Definition ERR_FAILURE : Z := to_err_t 0xFF.

(** [ERR_NONE = 0] in every example's enumeration. *)
Definition ERR_NONE : Z := 0.

(** ** Program state *)

Section Protocol.

(** Everything the program can touch apart from the three globals of the
    header: devices, output, the consumer's own variables. *)
Variable W : Type.

Record mem : Type := mkMem {
  g_last_error : Z;           (* err_t g_last_error *)
  g_current_error_group : Z;  (* err_t g_current_error_group *)
  g_inject_error_flag : Z;    (* volatile uint8_t g_inject_error_flag *)
  world : W
}.

(** A call site is named by a number (its source line in the examples).
    The history lists the sites whose call expression has been evaluated,
    oldest first.  It is specification state: no operation can read or
    write it, only the evaluation of a call expression extends it. *)
Definition site : Type := nat.

Definition state : Type := (mem * list site)%type.

Definition mem_of (s : state) : mem := fst s.
Definition evaluated (s : state) : list site := snd s.

Definition set_g_last_error (v : Z) (m : mem) : mem :=
  mkMem (to_err_t v) (g_current_error_group m) (g_inject_error_flag m) (world m).

Definition set_g_inject_error_flag (v : Z) (m : mem) : mem :=
  mkMem (g_last_error m) (g_current_error_group m) (to_uint8 v) (world m).

Definition set_g_current_error_group (v : Z) (m : mem) : mem :=
  mkMem (g_last_error m) (to_err_t v) (g_inject_error_flag m) (world m).

(** ** Expressions and statements *)

(** A consumer function [int f(void)]: it may change any global. *)
Definition op : Type := mem -> Z * mem.

(** An expression with side effects. *)
Definition expr (A : Type) : Type := state -> A * state.

(** An expression without side effects, such as an enumeration constant or
    the name of a global: the [err_flag] argument of the macros. *)
Definition rvalue : Type := mem -> Z.

(** The call expression [f()] written at site [n]. *)
Definition call_at (n : site) (f : op) : expr Z :=
  fun s => let (v, m') := f (mem_of s) in (v, (m', evaluated s ++ [n])).

(** An integer constant used as an expression, as in [CHECK(0, ERR_SENSOR)]. *)
Definition literal (z : Z) : expr Z := fun s => (z, s).

(** An enumeration constant used as [err_flag]. *)
Definition lit (e : Z) : rvalue := fun _ => e.

(** How a statement ends: control reaches the next statement, or the
    enclosing function returns [v]. *)
Inductive outcome : Type :=
| Fallthrough
| Returned (v : Z).

Definition stmt : Type := state -> outcome * state.

Definition skip : stmt := fun s => (Fallthrough, s).

Definition seq (a b : stmt) : stmt :=
  fun s => match a s with
           | (Fallthrough, s') => b s'
           | (Returned v, s') => (Returned v, s')
           end.

(** [if (c) { body }] *)
Definition IF (c : expr bool) (body : stmt) : stmt :=
  fun s => let (b, s') := c s in if b then body s' else (Fallthrough, s').

(** [do { body } while (0)]: the body runs once, the condition is the
    constant 0. *)
Definition DO_WHILE_0 (body : stmt) : stmt := body.

(** [(e) == 0] *)
Definition eq_zero (e : expr Z) : expr bool :=
  fun s => let (v, s') := e s in (v =? 0, s').

(** [g_inject_error_flag == (err_flag)]: both sides are promoted to [int]. *)
Definition inject_flag_eq (err_flag : rvalue) : expr bool :=
  fun s => (g_inject_error_flag (mem_of s) =? err_flag (mem_of s), s).

(** [a || b]: [b] is evaluated only when [a] is false. *)
Definition LOR (a b : expr bool) : expr bool :=
  fun s => let (x, s') := a s in if x then (true, s') else b s'.

(** [g_last_error = (err_flag);] *)
Definition assign_g_last_error (err_flag : rvalue) : stmt :=
  fun s => (Fallthrough,
            (set_g_last_error (err_flag (mem_of s)) (mem_of s), evaluated s)).

(** [g_inject_error_flag = 0;] *)
Definition assign_g_inject_error_flag (v : Z) : stmt :=
  fun s => (Fallthrough, (set_g_inject_error_flag v (mem_of s), evaluated s)).

(** [return v;] in a function whose return type is [err_t]. *)
Definition RETURN (v : Z) : stmt := fun s => (Returned (to_err_t v), s).

(** ** The macros *)

(** Lines 32-37, the standard check:
<<
#define CHECK(call, err_flag) do {
    if ((call) == 0) {
        g_last_error = (err_flag);
        return ERR_FAILURE;
    }
} while (0)
>> *)
Definition CHECK_standard (call : expr Z) (err_flag : rvalue) : stmt :=
  DO_WHILE_0
    (IF (eq_zero call)
        (seq (assign_g_last_error err_flag)
             (RETURN ERR_FAILURE))).

(** Lines 54-60, the check compiled under
    [ERRCHECK_ENABLE_RUNTIME_INJECTION]:
<<
#define CHECK(call, err_flag) do {
    if ((call) == 0 || g_inject_error_flag == (err_flag)) {
        g_last_error = (err_flag);
        g_inject_error_flag = 0;
        return ERR_FAILURE;
    }
} while (0)
>> *)
Definition CHECK_injection (call : expr Z) (err_flag : rvalue) : stmt :=
  DO_WHILE_0
    (IF (LOR (eq_zero call) (inject_flag_eq err_flag))
        (seq (assign_g_last_error err_flag)
             (seq (assign_g_inject_error_flag 0)
                  (RETURN ERR_FAILURE)))).

(** [CHECK] as the preprocessor selects it: lines 51-61 replace the standard
    definition when [ERRCHECK_ENABLE_RUNTIME_INJECTION] is defined. *)
Definition CHECK (ERRCHECK_ENABLE_RUNTIME_INJECTION : bool)
    (call : expr Z) (err_flag : rvalue) : stmt :=
  if ERRCHECK_ENABLE_RUNTIME_INJECTION
  then CHECK_injection call err_flag
  else CHECK_standard call err_flag.

(** Line 40: [#define CHECK_SAME(call) CHECK((call), g_current_error_group)].
    The macro is expanded where it is used, so it picks up whichever [CHECK]
    the build selected. *)
Definition CHECK_SAME (ERRCHECK_ENABLE_RUNTIME_INJECTION : bool)
    (call : expr Z) : stmt :=
  CHECK ERRCHECK_ENABLE_RUNTIME_INJECTION call g_current_error_group.

(** Lines 43-46:
<<
#define RETURN_ERR(err_flag) do {
    g_last_error = (err_flag);
    return ERR_FAILURE;
} while (0)
>> *)
Definition RETURN_ERR (err_flag : rvalue) : stmt :=
  DO_WHILE_0
    (seq (assign_g_last_error err_flag)
         (RETURN ERR_FAILURE)).

(** The external controller (a debugger) stores a code in the trigger. *)
Definition arm (x : Z) (s : state) : state :=
  (set_g_inject_error_flag x (mem_of s), evaluated s).

End Protocol.

Arguments mkMem {W}.
Arguments g_last_error {W}.
Arguments g_current_error_group {W}.
Arguments g_inject_error_flag {W}.
Arguments world {W}.
Arguments mem_of {W}.
Arguments evaluated {W}.
Arguments set_g_last_error {W}.
Arguments set_g_inject_error_flag {W}.
Arguments set_g_current_error_group {W}.
Arguments call_at {W} n%_nat f.
Arguments literal {W}.
Arguments lit {W}.
Arguments skip {W}.
Arguments seq {W}.
Arguments IF {W}.
Arguments DO_WHILE_0 {W}.
Arguments eq_zero {W}.
Arguments inject_flag_eq {W}.
Arguments LOR {W}.
Arguments assign_g_last_error {W}.
Arguments assign_g_inject_error_flag {W}.
Arguments RETURN {W}.
Arguments CHECK_standard {W}.
Arguments CHECK_injection {W}.
Arguments CHECK {W}.
Arguments CHECK_SAME {W}.
Arguments RETURN_ERR {W}.
Arguments arm {W}.

Declare Scope stmt_scope.
Delimit Scope stmt_scope with stmt.
Notation "a ;; b" := (seq a b) (at level 61, right associativity) : stmt_scope.

End Errcheck.

Import Errcheck.
Local Open Scope stmt_scope.

(** ** The example programs

    Their world is the standard output, kept as the list of lines printed
    so far: each [printf] of the drivers and of the init functions prints
    one line, recorded here without its final newline. *)

Definition stdout : Type := list string.

Definition print (line : string) (m : mem stdout) : mem stdout :=
  mkMem (g_last_error m) (g_current_error_group m) (g_inject_error_flag m)
        (world m ++ [line]).

(** [printf(line);] as a statement of an enclosing function. *)
Definition PRINTF (line : string) : stmt stdout :=
  fun s => (Fallthrough, (print line (mem_of s), evaluated s)).

(** Memory at program start: the globals as the examples initialise them
    and nothing printed yet. *)
Definition startup (group : Z) : state stdout :=
  (mkMem ERR_NONE group 0 [], []).

(** *** examples/basic_usage.c *)
Module BasicUsage.

Definition ERR_POWER : Z := 1.
Definition ERR_SENSOR : Z := 2.
Definition ERR_RADIO : Z := 3.

Definition init_power : op stdout :=
  fun m => (1, print "Power regulator: OK" m).

Definition init_sensor : op stdout :=
  fun m => (1, print "Sensor: OK" m).

Definition init_radio : op stdout :=
  fun m => (0, print "Radio: FAILED" m).

(** Call sites are numbered by their line in the example. *)
Definition device_init : stmt stdout :=
  CHECK false (call_at 57 init_power) (lit ERR_POWER) ;;
  CHECK false (call_at 58 init_sensor) (lit ERR_SENSOR) ;;
  CHECK false (call_at 59 init_radio) (lit ERR_RADIO) ;;
  RETURN ERR_NONE.

End BasicUsage.

(** *** examples/multiple_errors.c *)
Module MultipleErrors.

Definition ERR_I2C : Z := 1.
Definition ERR_SPI : Z := 2.
Definition ERR_UART : Z := 3.
Definition ERR_TIMEOUT : Z := 4.

Definition i2c_write : op stdout := fun m => (1, print "I2C write  → OK" m).
Definition i2c_read : op stdout := fun m => (0, print "I2C read   → FAILED" m).
Definition spi_test : op stdout := fun m => (1, print "SPI test   → OK" m).
Definition uart_init : op stdout := fun m => (1, print "UART init  → OK" m).

Definition bus_init : stmt stdout :=
  CHECK_SAME false (call_at 49 i2c_write) ;;
  CHECK false (call_at 50 i2c_read) (lit ERR_I2C) ;;
  CHECK false (call_at 53 spi_test) (lit ERR_SPI) ;;
  CHECK false (call_at 54 uart_init) (lit ERR_UART) ;;
  RETURN ERR_NONE.

End MultipleErrors.

(** *** examples/fault_injection_compile_time.c *)
Module CompileTime.

Definition ERR_SENSOR : Z := 1.

(** Lines 27-33:
<<
#ifdef INJECT_ERR_SENSOR
    #define CHECK_SENSOR(call)  CHECK(0, ERR_SENSOR)
#else
    #define CHECK_SENSOR(call)  CHECK(call, ERR_SENSOR)
#endif
>>
    The first flag is the example's own; the second is the header's, which
    decides what [CHECK] expands to. *)
Definition CHECK_SENSOR {W : Type}
    (INJECT_ERR_SENSOR ERRCHECK_ENABLE_RUNTIME_INJECTION : bool)
    (call : expr W Z) : stmt W :=
  if INJECT_ERR_SENSOR
  then CHECK ERRCHECK_ENABLE_RUNTIME_INJECTION (literal 0) (lit ERR_SENSOR)
  else CHECK ERRCHECK_ENABLE_RUNTIME_INJECTION call (lit ERR_SENSOR).

Definition calibrate_imu : op stdout :=
  fun m => (1, print "IMU calibration: would normally pass" m).

Definition init (INJECT_ERR_SENSOR : bool) : stmt stdout :=
  PRINTF "Starting initialization with fault injection test..." ;;
  CHECK_SENSOR INJECT_ERR_SENSOR false (call_at 66 calibrate_imu) ;;
  PRINTF "IMU calibration successful!" ;;
  RETURN ERR_NONE.

End CompileTime.

(** *** examples/fault_injection_runtime.c *)
Module Runtime.

Definition ERR_RADIO : Z := 1.

Definition radio_start : op stdout :=
  fun m => (1, print "Radio hardware start → normally would succeed" m).

Definition init : stmt stdout :=
  PRINTF "Starting initialization..." ;;
  CHECK true (call_at 61 radio_start) (lit ERR_RADIO) ;;
  PRINTF "Radio initialized successfully!" ;;
  RETURN ERR_NONE.

End Runtime.

(** ** Vocabulary of the statements below *)

(** What the failure branch of a check leaves behind, per build: the code is
    stored and, in a build with runtime injection, the trigger is cleared. *)
Definition failure_state {W : Type} (rt : bool) (e : Z) (s : state W) : state W :=
  if rt
  then (set_g_inject_error_flag 0 (set_g_last_error e (mem_of s)), evaluated s)
  else (set_g_last_error e (mem_of s), evaluated s).

(** A run of checks written one after the other,
    [CHECK(f1(), e1); ... CHECK(fk(), ek);], each with its site. *)
Fixpoint CHECK_each {W : Type} (rt : bool) (cs : list (site * op W * Z))
    : stmt W :=
  match cs with
  | [] => skip
  | (n, f, e) :: cs' => CHECK rt (call_at n f) (lit e) ;; CHECK_each rt cs'
  end.

Definition site_of {W : Type} (c : site * op W * Z) : site := fst (fst c).

(** The statement left the enclosing function. *)
Definition exits_early (r : outcome) : bool :=
  match r with
  | Fallthrough => false
  | Returned _ => true
  end.

(** ** The usage patterns of the README

    The drivers these functions call are not part of the repository; they
    are parameters, of the shape their call sites show. *)
Module Readme.

(** Step 2, the enumeration: [ERR_NONE = 0, ERR_POWER, ERR_SENSOR,
    ERR_RADIO, ERR_FLASH, ERR_TIMEOUT, ERR_MAX]. *)
Definition ERR_POWER : Z := 1.
Definition ERR_SENSOR : Z := 2.
Definition ERR_RADIO : Z := 3.
Definition ERR_FLASH : Z := 4.
Definition ERR_TIMEOUT : Z := 5.
Definition ERR_MAX : Z := 6.

Section Drivers.

Context {W : Type}.

(** [device_t *] and the address [&dev->sensor] of its sensor field. *)
Variables (device_ptr sensor_ptr : Type).
Variable sensor_field : device_ptr -> sensor_ptr.

Variable power_on : Z -> op W.
Variable sensor_init : sensor_ptr -> op W.
Variable radio_begin : op W.
Variable flash_verify : op W.

(** Step 3:
<<
err_t device_init(device_t *dev)
{
    CHECK(power_on(3300),            ERR_POWER);
    CHECK(sensor_init(&dev->sensor), ERR_SENSOR);
    CHECK(radio_begin(),             ERR_RADIO);
    CHECK(flash_verify(),            ERR_FLASH);

    return ERR_NONE;
}
>> *)
Definition device_init (rt : bool) (dev : device_ptr) : stmt W :=
  CHECK rt (call_at 100 (power_on 3300)) (lit ERR_POWER) ;;
  CHECK rt (call_at 101 (sensor_init (sensor_field dev))) (lit ERR_SENSOR) ;;
  CHECK rt (call_at 102 radio_begin) (lit ERR_RADIO) ;;
  CHECK rt (call_at 103 flash_verify) (lit ERR_FLASH) ;;
  RETURN ERR_NONE.

(** The same four checks as a list, for the facts about runs of checks. *)
Definition device_init_checks (dev : device_ptr) : list (site * op W * Z) :=
  [ (100%nat, power_on 3300, ERR_POWER);
    (101%nat, sensor_init (sensor_field dev), ERR_SENSOR);
    (102%nat, radio_begin, ERR_RADIO);
    (103%nat, flash_verify, ERR_FLASH) ].

Variable i2c_master_enable : op W.
Variable i2c_set_baudrate : Z -> op W.
Variable i2c_probe_slave : Z -> op W.

(** Step 4:
<<
err_t i2c_init(void)
{
    CHECK_SAME(i2c_master_enable());
    CHECK_SAME(i2c_set_baudrate(400000));
    CHECK_SAME(i2c_probe_slave(0x50));
    return ERR_NONE;
}
>> *)
Definition i2c_init (rt : bool) : stmt W :=
  CHECK_SAME rt (call_at 116 i2c_master_enable) ;;
  CHECK_SAME rt (call_at 117 (i2c_set_baudrate 400000)) ;;
  CHECK_SAME rt (call_at 118 (i2c_probe_slave 0x50)) ;;
  RETURN ERR_NONE.

End Drivers.

End Readme.

(** ** Vocabulary for runs of checks *)

Definition op_of {W : Type} (c : site * op W * Z) : op W := snd (fst c).

Definition code_of {W : Type} (c : site * op W * Z) : Z := snd c.

(** The memory after the operations of a run have been called in order. *)
Fixpoint run_ops {W : Type} (cs : list (site * op W * Z)) (m : mem W) : mem W :=
  match cs with
  | [] => m
  | c :: cs' => run_ops cs' (snd (op_of c m))
  end.

(** One check passes: its call yields nonzero and, in a build with runtime
    injection, the trigger the call leaves is not the check's code. *)
Definition check_passes {W : Type} (rt : bool) (c : site * op W * Z)
    (m : mem W) : bool :=
  negb ((fst (op_of c m) =? 0)
        || (rt && (g_inject_error_flag (snd (op_of c m)) =? code_of c))).

(** Every check of a run passes, each in the memory its predecessors left. *)
Fixpoint all_pass {W : Type} (rt : bool) (cs : list (site * op W * Z))
    (m : mem W) : bool :=
  match cs with
  | [] => true
  | c :: cs' => check_passes rt c m && all_pass rt cs' (snd (op_of c m))
  end.

(** A run of grouped checks, [CHECK_SAME(f1()); ... CHECK_SAME(fk());]. *)
Fixpoint CHECK_SAME_each {W : Type} (rt : bool) (cs : list (site * op W))
    : stmt W :=
  match cs with
  | [] => skip
  | (n, f) :: cs' => CHECK_SAME rt (call_at n f) ;; CHECK_SAME_each rt cs'
  end.

(** An operation that leaves a global as it found it. *)
Definition keeps {W : Type} (g : mem W -> Z) (f : op W) : Prop :=
  forall m : mem W, g (snd (f m)) = g m.

(** Where a statement can stand in an enclosing function: alone, between
    other statements, or in the body of an [if], nested at will. *)
Inductive context (W : Type) : Type :=
| Here
| Between (pre : stmt W) (c : context W) (rest : stmt W)
| Under (cond : expr W bool) (c : context W).

Arguments Here {W}.
Arguments Between {W}.
Arguments Under {W}.

Fixpoint plug {W : Type} (c : context W) (x : stmt W) : stmt W :=
  match c with
  | Here => x
  | Between pre c' rest => pre ;; plug c' x ;; rest
  | Under cond c' => IF cond (plug c' x)
  end.

(** Control that enters the function in [s0] arrives at the hole in [s]. *)
Fixpoint reaches {W : Type} (c : context W) (s0 s : state W) : Prop :=
  match c with
  | Here => s0 = s
  | Between pre c' _ => exists s', pre s0 = (Fallthrough, s') /\ reaches c' s' s
  | Under cond c' => exists s', cond s0 = (true, s') /\ reaches c' s' s
  end.

(** ** Basic facts about statements *)

Section Facts.

Context {W : Type}.

Implicit Types (s : state W) (m : mem W) (a b : stmt W) (call : expr W Z)
  (err_flag : rvalue W) (f : op W).

Lemma seq_fallthrough a b s s' :
  a s = (Fallthrough, s') -> (a ;; b) s = b s'.
Proof. intros H. unfold seq. now rewrite H. Qed.

Lemma seq_returned a b s s' v :
  a s = (Returned v, s') -> (a ;; b) s = (Returned v, s').
Proof. intros H. unfold seq. now rewrite H. Qed.

Lemma seq_assoc a b (c : stmt W) s :
  ((a ;; b) ;; c) s = (a ;; b ;; c) s.
Proof.
  unfold seq. destruct (a s) as [[|v] s1]; [|reflexivity].
  destruct (b s1) as [[|v] s2]; reflexivity.
Qed.

Lemma to_err_t_id e : is_err_t e -> to_err_t e = e.
Proof. unfold is_err_t, is_uint8, to_err_t, to_uint8. intros H. now apply Z.mod_small. Qed.

Lemma ERR_FAILURE_value : ERR_FAILURE = 255.
Proof. reflexivity. Qed.

Lemma ERR_FAILURE_is_err_t : is_err_t ERR_FAILURE.
Proof. rewrite ERR_FAILURE_value. unfold is_err_t, is_uint8. lia. Qed.

(** The standard check, unfolded once and for all. *)
Lemma CHECK_standard_run call err_flag s :
  CHECK_standard call err_flag s =
  let (v, s1) := call s in
  if v =? 0
  then (Returned ERR_FAILURE, failure_state false (err_flag (mem_of s1)) s1)
  else (Fallthrough, s1).
Proof.
  unfold CHECK_standard, DO_WHILE_0, IF, eq_zero.
  destruct (call s) as [v s1]. destruct (v =? 0); reflexivity.
Qed.

(** The injectable check: the short-circuit disjunction of the source. *)
Lemma CHECK_injection_run call err_flag s :
  CHECK_injection call err_flag s =
  let (v, s1) := call s in
  if (v =? 0) || (g_inject_error_flag (mem_of s1) =? err_flag (mem_of s1))
  then (Returned ERR_FAILURE, failure_state true (err_flag (mem_of s1)) s1)
  else (Fallthrough, s1).
Proof.
  unfold CHECK_injection, DO_WHILE_0, IF, LOR, eq_zero, inject_flag_eq.
  destruct (call s) as [v s1]. destruct (v =? 0); simpl; [reflexivity|].
  destruct (_ =? _); reflexivity.
Qed.

Lemma call_at_run n f s v m1 :
  f (mem_of s) = (v, m1) ->
  call_at n f s = (v, (m1, evaluated s ++ [n])).
Proof. intros H. unfold call_at. now rewrite H. Qed.

Lemma g_last_error_failure_state rt e s :
  g_last_error (mem_of (failure_state rt e s)) = to_err_t e.
Proof. destruct rt; reflexivity. Qed.

Lemma evaluated_failure_state rt e s :
  evaluated (failure_state rt e s) = evaluated s.
Proof. destruct rt; reflexivity. Qed.

Lemma g_inject_error_flag_failure_state e s :
  g_inject_error_flag (mem_of (failure_state true e s)) = 0.
Proof. reflexivity. Qed.

(** A check whose call yields zero, in either build. *)
Lemma CHECK_zero rt call err_flag s s1 :
  call s = (0, s1) ->
  CHECK rt call err_flag s =
  (Returned ERR_FAILURE, failure_state rt (err_flag (mem_of s1)) s1).
Proof.
  intros H. destruct rt; simpl.
  - rewrite CHECK_injection_run, H. reflexivity.
  - rewrite CHECK_standard_run, H. reflexivity.
Qed.

(** The memory after the failure branch, field by field. *)
Lemma failure_state_fields rt e m h :
  is_err_t e ->
  failure_state rt e (m, h) =
  (mkMem e (g_current_error_group m)
         (if rt then 0 else g_inject_error_flag m) (world m), h).
Proof.
  intros He. destruct rt;
    cbv [failure_state set_g_inject_error_flag set_g_last_error mem_of
         evaluated fst snd g_last_error g_current_error_group
         g_inject_error_flag world];
    rewrite (to_err_t_id e He); reflexivity.
Qed.

(** A check of a call expression either falls through in the state the call
    left or takes the failure branch there; the call is evaluated once. *)
Lemma CHECK_call_at_cases rt n f err_flag s v m1 :
  f (mem_of s) = (v, m1) ->
  CHECK rt (call_at n f) err_flag s = (Fallthrough, (m1, evaluated s ++ [n]))
  \/ CHECK rt (call_at n f) err_flag s
     = (Returned ERR_FAILURE,
        failure_state rt (err_flag m1) (m1, evaluated s ++ [n])).
Proof.
  intros Hf. pose proof (call_at_run n f s v m1 Hf) as Hc.
  destruct rt; simpl.
  - rewrite CHECK_injection_run, Hc. destruct (_ || _); [right|left]; reflexivity.
  - rewrite CHECK_standard_run, Hc. destruct (_ =? _); [right|left]; reflexivity.
Qed.

(** Checks are evaluated in the order they are written, and none after the
    first that fails: the sites evaluated by a run of checks are an initial
    segment of the run, all of it when the run falls through. *)
Lemma CHECK_each_evaluates_prefix rt (cs : list (site * op W * Z)) s :
  exists k : nat,
    evaluated (snd (CHECK_each rt cs s))
      = evaluated s ++ firstn k (map site_of cs)
    /\ (fst (CHECK_each rt cs s) = Fallthrough -> k = List.length cs).
Proof.
  revert s. induction cs as [|[[n f] e] cs IH]; intros s.
  - exists 0%nat. simpl. now rewrite app_nil_r.
  - simpl. destruct (f (mem_of s)) as [v m1] eqn:Hf.
    destruct (CHECK_call_at_cases rt n f (lit e) s v m1 Hf) as [H|H].
    + rewrite (seq_fallthrough _ _ _ _ H).
      destruct (IH (m1, evaluated s ++ [n])) as [k [Hk Hall]].
      exists (S k). split.
      * rewrite Hk. cbn [evaluated snd map firstn site_of fst].
        now rewrite <- app_assoc.
      * intros Hft. f_equal. now apply Hall.
    + rewrite (seq_returned _ _ _ _ _ H).
      exists 1%nat. split.
      * cbn [snd]. rewrite evaluated_failure_state. reflexivity.
      * cbn [fst]. discriminate.
Qed.

(** The injectable check of a call expression, by the value of its test. *)
Lemma CHECK_injection_call_at n f err_flag s v m1 :
  f (mem_of s) = (v, m1) ->
  CHECK true (call_at n f) err_flag s =
  if (v =? 0) || (g_inject_error_flag m1 =? err_flag m1)
  then (Returned ERR_FAILURE,
        failure_state true (err_flag m1) (m1, evaluated s ++ [n]))
  else (Fallthrough, (m1, evaluated s ++ [n])).
Proof.
  intros Hf. simpl. rewrite CHECK_injection_run.
  rewrite (call_at_run n f s v m1 Hf). reflexivity.
Qed.

(** The standard check of a call expression, by the outcome of the call. *)
Lemma CHECK_standard_call_at n f err_flag s v m1 :
  f (mem_of s) = (v, m1) ->
  CHECK false (call_at n f) err_flag s =
  if v =? 0
  then (Returned ERR_FAILURE,
        failure_state false (err_flag m1) (m1, evaluated s ++ [n]))
  else (Fallthrough, (m1, evaluated s ++ [n])).
Proof.
  intros Hf. simpl. rewrite CHECK_standard_run.
  rewrite (call_at_run n f s v m1 Hf). reflexivity.
Qed.

Lemma count_occ_snoc (h : list site) (n : site) :
  count_occ Nat.eq_dec (h ++ [n]) n = S (count_occ Nat.eq_dec h n).
Proof.
  rewrite count_occ_app. cbn [count_occ].
  destruct (Nat.eq_dec n n) as [_|E]; [|contradiction].
  now rewrite Nat.add_1_r.
Qed.

End Facts.

(** ** The example programs, run from start-up *)

(** basic_usage.c: power and sensor pass, the radio fails; [device_init]
    returns [ERR_FAILURE] with [g_last_error == ERR_RADIO], after the three
    drivers ran once each, in order. *)
Example device_init_run :
  BasicUsage.device_init (startup 0)
  = (Returned ERR_FAILURE,
     (mkMem BasicUsage.ERR_RADIO 0 0
            ["Power regulator: OK"; "Sensor: OK"; "Radio: FAILED"]%string,
      [57; 58; 59]%nat)).
Proof. reflexivity. Qed.

(** multiple_errors.c: the read fails, the SPI and UART checks never run. *)
Example bus_init_run :
  MultipleErrors.bus_init (startup MultipleErrors.ERR_I2C)
  = (Returned ERR_FAILURE,
     (mkMem MultipleErrors.ERR_I2C MultipleErrors.ERR_I2C 0
            ["I2C write  → OK"; "I2C read   → FAILED"]%string,
      [49; 50]%nat)).
Proof. reflexivity. Qed.

(** fault_injection_compile_time.c built with [INJECT_ERR_SENSOR]: the
    calibration is not even called. *)
Example init_injected_run :
  CompileTime.init true (startup 0)
  = (Returned ERR_FAILURE,
     (mkMem CompileTime.ERR_SENSOR 0 0
            ["Starting initialization with fault injection test..."]%string,
      [])).
Proof. reflexivity. Qed.

(** The same file built without the flag. *)
Example init_not_injected_run :
  CompileTime.init false (startup 0)
  = (Returned ERR_NONE,
     (mkMem ERR_NONE 0 0
            ["Starting initialization with fault injection test...";
             "IMU calibration: would normally pass";
             "IMU calibration successful!"]%string,
      [66%nat])).
Proof. reflexivity. Qed.

(** fault_injection_runtime.c with the trigger set to [ERR_RADIO] from the
    debugger: the radio driver still runs, then the check fails. *)
Example runtime_init_armed_run :
  Runtime.init (arm Runtime.ERR_RADIO (startup 0))
  = (Returned ERR_FAILURE,
     (mkMem Runtime.ERR_RADIO 0 0
            ["Starting initialization...";
             "Radio hardware start → normally would succeed"]%string,
      [61%nat])).
Proof. reflexivity. Qed.

Example runtime_init_unarmed_run :
  Runtime.init (startup 0)
  = (Returned ERR_NONE,
     (mkMem ERR_NONE 0 0
            ["Starting initialization...";
             "Radio hardware start → normally would succeed";
             "Radio initialized successfully!"]%string,
      [61%nat])).
Proof. reflexivity. Qed.

(** ** The checked-call protocol *)

(** C1: in either build, a checked call whose real outcome is zero, with
    site code [e] other than [ERR_NONE], stores [e] in [g_last_error] and
    makes the enclosing function return [ERR_FAILURE] at once: whatever
    precedes the check in the function and whatever follows it, the function
    ends with result [ERR_FAILURE] in the state the call left, changed only
    by the failure branch, and [g_last_error] there is [e]. *)
Theorem C1_failed_check_records_code_and_returns
    {W : Type} (rt : bool) (pre rest : stmt W) (call : expr W Z) (e : Z)
    (s0 s s1 : state W) :
  is_err_t e -> e <> ERR_NONE ->
  pre s0 = (Fallthrough, s) ->
  call s = (0, s1) ->
  (pre ;; CHECK rt call (lit e) ;; rest) s0
    = (Returned ERR_FAILURE, failure_state rt e s1)
  /\ g_last_error (mem_of (failure_state rt e s1)) = e.
Proof.
  intros He _ Hpre Hcall. split.
  - rewrite (seq_fallthrough _ _ _ _ Hpre).
    apply seq_returned. exact (CHECK_zero rt call (lit e) s s1 Hcall).
  - rewrite g_last_error_failure_state. now apply to_err_t_id.
Qed.

Lemma C1_witness :
  let s := startup 0 in
  let call := call_at 59 BasicUsage.init_radio in
  (skip ;; CHECK false call (lit 3) ;; RETURN ERR_NONE) s
    = (Returned ERR_FAILURE, failure_state false 3 (snd (call s)))
  /\ g_last_error (mem_of (failure_state false 3 (snd (call s)))) = 3.
Proof.
  intros s call.
  apply (C1_failed_check_records_code_and_returns
           false skip (RETURN ERR_NONE) call 3 s s (snd (call s))).
  - unfold is_err_t, is_uint8. lia.
  - discriminate.
  - reflexivity.
  - reflexivity.
Defined.

(** C5: a check fails on an exact zero only.  For every nonzero outcome,
    however the call produced it, the check falls through, the enclosing
    function goes on with the statements after it, and the state is the one
    the call itself left: the check writes nothing, so [g_last_error] is
    what it was when the call returned.  Conversely the check leaves the
    function exactly when the outcome is zero.  This is the standard check
    of lines 32-37; it also holds of the injectable check as long as the
    trigger does not hold the call's code when it is tested. *)
Theorem C5_nonzero_outcome_is_success
    {W : Type} (rt : bool) (pre rest : stmt W) (call : expr W Z)
    (err_flag : rvalue W) (v : Z) (s0 s s1 : state W) :
  pre s0 = (Fallthrough, s) ->
  call s = (v, s1) ->
  (rt = true -> g_inject_error_flag (mem_of s1) <> err_flag (mem_of s1)) ->
  (v <> 0 ->
     CHECK rt call err_flag s = (Fallthrough, s1)
     /\ (pre ;; CHECK rt call err_flag ;; rest) s0 = rest s1
     /\ g_last_error (mem_of (snd (CHECK rt call err_flag s)))
        = g_last_error (mem_of s1))
  /\ (exits_early (fst (CHECK rt call err_flag s)) = true <-> v = 0).
Proof.
  intros Hpre Hcall Hinj.
  assert (Hrun : CHECK rt call err_flag s =
                 if v =? 0
                 then (Returned ERR_FAILURE,
                       failure_state rt (err_flag (mem_of s1)) s1)
                 else (Fallthrough, s1)).
  { destruct rt; simpl.
    - rewrite CHECK_injection_run, Hcall.
      specialize (Hinj eq_refl). apply Z.eqb_neq in Hinj.
      now rewrite Hinj, orb_false_r.
    - rewrite CHECK_standard_run, Hcall. reflexivity. }
  split.
  - intros Hv. apply Z.eqb_neq in Hv. rewrite Hv in Hrun.
    repeat split.
    + exact Hrun.
    + rewrite (seq_fallthrough _ _ _ _ Hpre).
      now apply seq_fallthrough.
    + now rewrite Hrun.
  - rewrite Hrun. destruct (Z.eqb_spec v 0) as [E|E]; simpl; split; intros H;
      try reflexivity; try assumption; try discriminate; contradiction.
Qed.

Lemma C5_witness :
  let s := startup 0 in
  let call := call_at 57 BasicUsage.init_power in
  let rest := RETURN ERR_NONE in
  (1 <> 0 ->
     CHECK false call (lit 1) s = (Fallthrough, snd (call s))
     /\ (skip ;; CHECK false call (lit 1) ;; rest) s = rest (snd (call s))
     /\ g_last_error (mem_of (snd (CHECK false call (lit 1) s)))
        = g_last_error (mem_of (snd (call s))))
  /\ (exits_early (fst (CHECK false call (lit 1) s)) = true <-> 1 = 0).
Proof.
  intros s call rest.
  apply (C5_nonzero_outcome_is_success
           false skip rest call (lit 1) 1 s s (snd (call s))).
  - reflexivity.
  - reflexivity.
  - discriminate.
Defined.

(** C8: [RETURN_ERR(e)] takes no call outcome.  For every error code [e] it
    stores [e] in [g_last_error] and makes the enclosing function return
    [ERR_FAILURE]; the statements after it do not run, so the final state is
    the one in which it was reached, with only [g_last_error] changed. *)
Theorem C8_return_err_always_fails
    {W : Type} (pre rest : stmt W) (e : Z) (s0 s : state W) :
  is_err_t e ->
  pre s0 = (Fallthrough, s) ->
  (pre ;; RETURN_ERR (lit e) ;; rest) s0
    = (Returned ERR_FAILURE, (set_g_last_error e (mem_of s), evaluated s))
  /\ g_last_error (set_g_last_error e (mem_of s)) = e.
Proof.
  intros He Hpre. split.
  - rewrite (seq_fallthrough _ _ _ _ Hpre). now apply seq_returned.
  - simpl. now apply to_err_t_id.
Qed.

Lemma C8_witness :
  let s := startup 0 in
  let rest := PRINTF "unreachable" ;; RETURN ERR_NONE in
  (skip ;; RETURN_ERR (lit 0) ;; rest) s
    = (Returned ERR_FAILURE, (set_g_last_error 0 (mem_of s), evaluated s))
  /\ g_last_error (set_g_last_error 0 (mem_of s)) = 0.
Proof.
  intros s rest.
  apply (C8_return_err_always_fails skip rest 0 s s).
  - unfold is_err_t, is_uint8. lia.
  - reflexivity.
Defined.

(** C2: checks run in program order and the first failure wins.  When a
    check of [f1] with code [A] is followed by a check of [f2] with code [B]
    and [f1] yields zero, the enclosing function returns [ERR_FAILURE] from
    the first check: the final memory is the one [f1] left with the failure
    branch applied, [g_last_error] is [A] (hence not [B] when the codes
    differ), and the history gained the site of [f1] only, so [f2] was never
    evaluated, whatever it would have yielded.  More generally a run of
    checks evaluates an initial segment of its call sites, in order. *)
Theorem C2_first_failure_dominates
    {W : Type} (rt : bool) (pre rest : stmt W) (n1 n2 : site) (f1 f2 : op W)
    (A B : Z) (s0 : state W) (m m1 : mem W) (h : list site) :
  is_err_t A ->
  pre s0 = (Fallthrough, (m, h)) ->
  f1 m = (0, m1) ->
  let body := pre ;; CHECK rt (call_at n1 f1) (lit A) ;;
              CHECK rt (call_at n2 f2) (lit B) ;; rest in
  body s0 = (Returned ERR_FAILURE, failure_state rt A (m1, h ++ [n1]))
  /\ g_last_error (mem_of (snd (body s0))) = A
  /\ (A <> B -> g_last_error (mem_of (snd (body s0))) <> B)
  /\ evaluated (snd (body s0)) = h ++ [n1]
  /\ (forall (cs : list (site * op W * Z)) (s : state W),
        exists k : nat,
          evaluated (snd (CHECK_each rt cs s))
            = evaluated s ++ firstn k (map site_of cs)
          /\ (fst (CHECK_each rt cs s) = Fallthrough -> k = List.length cs)).
Proof.
  intros HA Hpre Hf1 body.
  assert (Hbody : body s0
                  = (Returned ERR_FAILURE, failure_state rt A (m1, h ++ [n1]))).
  { unfold body. rewrite (seq_fallthrough _ _ _ _ Hpre).
    apply seq_returned.
    exact (CHECK_zero rt (call_at n1 f1) (lit A) (m, h) (m1, h ++ [n1])
             (call_at_run n1 f1 (m, h) 0 m1 Hf1)). }
  assert (Hlast : g_last_error (mem_of (snd (body s0))) = A).
  { rewrite Hbody. simpl snd. rewrite g_last_error_failure_state.
    now apply to_err_t_id. }
  repeat split.
  - exact Hbody.
  - exact Hlast.
  - intros HAB. now rewrite Hlast.
  - rewrite Hbody. simpl snd. now rewrite evaluated_failure_state.
  - intros cs s. apply CHECK_each_evaluates_prefix.
Qed.

Lemma C2_witness :
  let pre := PRINTF "Starting" in
  let rest := RETURN ERR_NONE in
  let f1 := MultipleErrors.i2c_read in
  let f2 := BasicUsage.init_radio in
  let m := mem_of (snd (pre (startup 0))) in
  let m1 := snd (f1 m) in
  let body := pre ;; CHECK false (call_at 1 f1) (lit 1) ;;
              CHECK false (call_at 2 f2) (lit 3) ;; rest in
  body (startup 0)
    = (Returned ERR_FAILURE, failure_state false 1 (m1, [] ++ [1%nat]))
  /\ g_last_error (mem_of (snd (body (startup 0)))) = 1
  /\ (1 <> 3 -> g_last_error (mem_of (snd (body (startup 0)))) <> 3)
  /\ evaluated (snd (body (startup 0))) = [] ++ [1%nat]
  /\ (forall (cs : list (site * op stdout * Z)) (s : state stdout),
        exists k : nat,
          evaluated (snd (CHECK_each false cs s))
            = evaluated s ++ firstn k (map site_of cs)
          /\ (fst (CHECK_each false cs s) = Fallthrough -> k = List.length cs)).
Proof.
  intros pre rest f1 f2 m m1 body.
  apply (C2_first_failure_dominates
           false pre rest 1%nat 2%nat f1 f2 1 3 (startup 0) m m1 []).
  - unfold is_err_t, is_uint8. lia.
  - reflexivity.
  - reflexivity.
Defined.

(** C6: [CHECK_SAME] is [CHECK] with the code read from
    [g_current_error_group] at the moment the check needs it.  With the
    group equal to [G] on entry and after each call, and three grouped
    checks of which the first passes and the second yields zero, the
    enclosing function returns [ERR_FAILURE], [g_last_error] is [G], and the
    history gained the first two sites only: the third call is never
    evaluated.  (In a build with runtime injection the first check passes
    only if the trigger does not hold [G] when it is tested.) *)
Theorem C6_grouped_checks_share_the_group_code
    {W : Type} (rt : bool) (pre rest : stmt W) (n1 n2 n3 : site)
    (f1 f2 f3 : op W) (G v1 : Z) (s0 : state W) (m m1 m2 : mem W)
    (h : list site) :
  is_err_t G ->
  pre s0 = (Fallthrough, (m, h)) ->
  g_current_error_group m = G ->
  f1 m = (v1, m1) -> v1 <> 0 -> g_current_error_group m1 = G ->
  (rt = true -> g_inject_error_flag m1 <> G) ->
  f2 m1 = (0, m2) -> g_current_error_group m2 = G ->
  let body := pre ;; CHECK_SAME rt (call_at n1 f1) ;;
              CHECK_SAME rt (call_at n2 f2) ;;
              CHECK_SAME rt (call_at n3 f3) ;; rest in
  body s0 = (Returned ERR_FAILURE, failure_state rt G (m2, h ++ [n1; n2]))
  /\ g_last_error (mem_of (snd (body s0))) = G
  /\ evaluated (snd (body s0)) = h ++ [n1; n2]
  /\ (forall (call : expr W Z) (s : state W),
        CHECK_SAME rt call s
        = CHECK rt call
            (lit (g_current_error_group (mem_of (snd (call s))))) s).
Proof.
  intros HG Hpre _ Hf1 Hv1 HG1 Hinj Hf2 HG2 body.
  assert (H1 : CHECK_SAME rt (call_at n1 f1) (m, h)
               = (Fallthrough, (m1, h ++ [n1]))).
  { unfold CHECK_SAME. apply Z.eqb_neq in Hv1. destruct rt.
    - rewrite (CHECK_injection_call_at n1 f1 _ (m, h) v1 m1 Hf1).
      rewrite Hv1, HG1. cbn [orb].
      specialize (Hinj eq_refl). apply Z.eqb_neq in Hinj.
      now rewrite Hinj.
    - rewrite (CHECK_standard_call_at n1 f1 _ (m, h) v1 m1 Hf1).
      now rewrite Hv1. }
  assert (H2 : CHECK_SAME rt (call_at n2 f2) (m1, h ++ [n1])
               = (Returned ERR_FAILURE,
                  failure_state rt G (m2, h ++ [n1; n2]))).
  { unfold CHECK_SAME.
    rewrite (CHECK_zero rt (call_at n2 f2) g_current_error_group
               (m1, h ++ [n1]) (m2, (h ++ [n1]) ++ [n2])
               (call_at_run n2 f2 (m1, h ++ [n1]) 0 m2 Hf2)).
    cbn [mem_of fst]. rewrite HG2, <- app_assoc. reflexivity. }
  assert (Hbody : body s0
                  = (Returned ERR_FAILURE,
                     failure_state rt G (m2, h ++ [n1; n2]))).
  { unfold body. rewrite (seq_fallthrough _ _ _ _ Hpre).
    rewrite (seq_fallthrough _ _ _ _ H1).
    now apply seq_returned. }
  repeat split.
  - exact Hbody.
  - rewrite Hbody. cbn [snd]. rewrite g_last_error_failure_state.
    now apply to_err_t_id.
  - rewrite Hbody. cbn [snd]. now rewrite evaluated_failure_state.
  - intros call s. unfold CHECK_SAME. destruct rt; simpl.
    + rewrite !CHECK_injection_run. now destruct (call s).
    + rewrite !CHECK_standard_run. now destruct (call s).
Qed.

Lemma C6_witness :
  let f1 := MultipleErrors.i2c_write in
  let f2 := MultipleErrors.i2c_read in
  let f3 := MultipleErrors.spi_test in
  let rest := RETURN ERR_NONE in
  let s0 := startup 1 in
  let m := mem_of s0 in
  let m1 := snd (f1 m) in
  let m2 := snd (f2 m1) in
  let body := skip ;; CHECK_SAME false (call_at 1 f1) ;;
              CHECK_SAME false (call_at 2 f2) ;;
              CHECK_SAME false (call_at 3 f3) ;; rest in
  body s0
    = (Returned ERR_FAILURE, failure_state false 1 (m2, [] ++ [1; 2]%nat))
  /\ g_last_error (mem_of (snd (body s0))) = 1
  /\ evaluated (snd (body s0)) = [] ++ [1; 2]%nat
  /\ (forall (call : expr stdout Z) (s : state stdout),
        CHECK_SAME false call s
        = CHECK false call
            (lit (g_current_error_group (mem_of (snd (call s))))) s).
Proof.
  intros f1 f2 f3 rest s0 m m1 m2.
  apply (C6_grouped_checks_share_the_group_code
           false skip rest 1%nat 2%nat 3%nat f1 f2 f3 1 1 s0 m m1 m2 []).
  - unfold is_err_t, is_uint8. lia.
  - reflexivity.
  - reflexivity.
  - reflexivity.
  - discriminate.
  - reflexivity.
  - discriminate.
  - reflexivity.
  - reflexivity.
Defined.

(** ** Build-time fault injection *)

(** C7: in a build with [INJECT_ERR_SENSOR] defined the tagged site
    [CHECK_SENSOR(call)] makes the enclosing function return [ERR_FAILURE]
    with [g_last_error] equal to [ERR_SENSOR], in the state in which the
    site was reached: the call expression has been replaced by the constant
    0, so the result does not depend on the call and the call is not
    evaluated.  In a build without the flag the site is the plain
    [CHECK(call, ERR_SENSOR)] of that build. *)
Theorem C7_build_time_injection
    {W : Type} (rt : bool) (pre rest : stmt W) (call : expr W Z)
    (s0 s : state W) :
  pre s0 = (Fallthrough, s) ->
  (pre ;; CompileTime.CHECK_SENSOR true rt call ;; rest) s0
    = (Returned ERR_FAILURE, failure_state rt CompileTime.ERR_SENSOR s)
  /\ g_last_error (mem_of (failure_state rt CompileTime.ERR_SENSOR s))
     = CompileTime.ERR_SENSOR
  /\ evaluated (failure_state rt CompileTime.ERR_SENSOR s) = evaluated s
  /\ CompileTime.CHECK_SENSOR false rt call
     = CHECK rt call (lit CompileTime.ERR_SENSOR).
Proof.
  intros Hpre. repeat split.
  - rewrite (seq_fallthrough _ _ _ _ Hpre). apply seq_returned.
    unfold CompileTime.CHECK_SENSOR.
    exact (CHECK_zero rt (literal 0) (lit CompileTime.ERR_SENSOR) s s eq_refl).
  - now rewrite g_last_error_failure_state.
  - apply evaluated_failure_state.
Qed.

Lemma C7_witness :
  let pre := PRINTF "Starting initialization with fault injection test..." in
  let rest := PRINTF "IMU calibration successful!" ;; RETURN ERR_NONE in
  let call := call_at 66 CompileTime.calibrate_imu in
  let s := snd (pre (startup 0)) in
  (pre ;; CompileTime.CHECK_SENSOR true false call ;; rest) (startup 0)
    = (Returned ERR_FAILURE, failure_state false CompileTime.ERR_SENSOR s)
  /\ g_last_error (mem_of (failure_state false CompileTime.ERR_SENSOR s))
     = CompileTime.ERR_SENSOR
  /\ evaluated (failure_state false CompileTime.ERR_SENSOR s) = evaluated s
  /\ CompileTime.CHECK_SENSOR false false call
     = CHECK false call (lit CompileTime.ERR_SENSOR).
Proof.
  intros pre rest call s.
  apply (C7_build_time_injection false pre rest call (startup 0) s).
  reflexivity.
Defined.

(** ** Runtime fault injection *)

(** C3: in a build with runtime injection the test of a checked call is the
    disjunction of "the call yielded zero" and "the trigger equals this
    call's code".  The call is evaluated exactly once whether or not the
    trigger is armed: the history gains its site once and the memory is the
    one a single run of the operation produced.  When the test holds,
    [g_last_error] becomes the code, the trigger becomes 0 and the enclosing
    function returns [ERR_FAILURE]; when it does not, control goes on after
    the check in the state the call left. *)
Theorem C3_runtime_injection_check
    {W : Type} (pre rest : stmt W) (n : site) (f : op W) (e v : Z)
    (s0 : state W) (m m1 : mem W) (h : list site) :
  is_err_t e ->
  pre s0 = (Fallthrough, (m, h)) ->
  f m = (v, m1) ->
  let test := (v =? 0) || (g_inject_error_flag m1 =? e) in
  let check := CHECK true (call_at n f) (lit e) in
  let failed := (mkMem e (g_current_error_group m1) 0 (world m1), h ++ [n]) in
  (test = true ->
     check (m, h) = (Returned ERR_FAILURE, failed)
     /\ (pre ;; check ;; rest) s0 = (Returned ERR_FAILURE, failed))
  /\ (test = false ->
     check (m, h) = (Fallthrough, (m1, h ++ [n]))
     /\ (pre ;; check ;; rest) s0 = rest (m1, h ++ [n]))
  /\ exits_early (fst (check (m, h))) = test
  /\ count_occ Nat.eq_dec (evaluated (snd (check (m, h)))) n
     = S (count_occ Nat.eq_dec h n).
Proof.
  intros He Hpre Hf test check failed.
  assert (Hrun : check (m, h) =
                 if test then (Returned ERR_FAILURE, failed)
                 else (Fallthrough, (m1, h ++ [n]))).
  { unfold check, test.
    rewrite (CHECK_injection_call_at n f (lit e) (m, h) v m1 Hf).
    unfold lit. cbn [evaluated snd].
    destruct (_ || _); [|reflexivity].
    now rewrite failure_state_fields. }
  clearbody test check. rewrite Hrun.
  rewrite (seq_fallthrough _ _ _ _ Hpre).
  destruct test; repeat split; intros; try discriminate; try reflexivity.
  - apply seq_returned. exact Hrun.
  - cbn [snd evaluated]. apply count_occ_snoc.
  - apply seq_fallthrough. exact Hrun.
  - cbn [snd evaluated]. apply count_occ_snoc.
Qed.

Lemma C3_witness :
  let pre := PRINTF "Starting initialization..." in
  let rest := PRINTF "Radio initialized successfully!" ;; RETURN ERR_NONE in
  let s0 := arm 1 (startup 0) in
  let m := mem_of (snd (pre s0)) in
  let m1 := snd (Runtime.radio_start m) in
  let test := (1 =? 0) || (g_inject_error_flag m1 =? 1) in
  let check := CHECK true (call_at 61 Runtime.radio_start) (lit 1) in
  let failed := (mkMem 1 (g_current_error_group m1) 0 (world m1),
                 [] ++ [61%nat]) in
  (test = true ->
     check (m, []) = (Returned ERR_FAILURE, failed)
     /\ (pre ;; check ;; rest) s0 = (Returned ERR_FAILURE, failed))
  /\ (test = false ->
     check (m, []) = (Fallthrough, (m1, [] ++ [61%nat]))
     /\ (pre ;; check ;; rest) s0 = rest (m1, [] ++ [61%nat]))
  /\ exits_early (fst (check (m, []))) = test
  /\ count_occ Nat.eq_dec (evaluated (snd (check (m, [])))) 61%nat
     = S (count_occ Nat.eq_dec [] 61%nat).
Proof.
  intros pre rest s0 m m1.
  apply (C3_runtime_injection_check
           pre rest 61%nat Runtime.radio_start 1 1 s0 m m1 []).
  - unfold is_err_t, is_uint8. lia.
  - reflexivity.
  - reflexivity.
Defined.

(** What the injectable check does with an armed trigger.  A check of the
    armed code [X] that finds the trigger still armed fails whatever its
    call yields and consumes the trigger; a second check of code [X] right
    after it, with no re-arming, behaves as the standard check.  A check of
    another code [Y] is decided by its real outcome alone; when it passes,
    the memory, trigger included, is the one its call left, and when it
    really fails line 57 clears the trigger with the rest of the failure
    branch. *)
Lemma armed_trigger_and_checks_of_either_code
    {W : Type} (n n2 n3 : site) (f f2 f3 : op W) (X Y v v2 v3 : Z)
    (m m1 m2 m3 : mem W) (h : list site) :
  is_err_t X -> X <> ERR_NONE -> is_err_t Y -> Y <> X ->
  f m = (v, m1) -> g_inject_error_flag m1 = X ->
  let fired := (mkMem X (g_current_error_group m1) 0 (world m1), h ++ [n]) in
  f2 (mem_of fired) = (v2, m2) ->
  g_inject_error_flag m2 = g_inject_error_flag (mem_of fired) ->
  f3 m = (v3, m3) -> g_inject_error_flag m3 = X ->
  CHECK true (call_at n f) (lit X) (m, h) = (Returned ERR_FAILURE, fired)
  /\ g_inject_error_flag (mem_of fired) = 0
  /\ CHECK true (call_at n2 f2) (lit X) fired
     = CHECK false (call_at n2 f2) (lit X) fired
  /\ exits_early (fst (CHECK true (call_at n3 f3) (lit Y) (m, h)))
     = exits_early (fst (CHECK false (call_at n3 f3) (lit Y) (m, h)))
  /\ (v3 <> 0 ->
      CHECK true (call_at n3 f3) (lit Y) (m, h)
      = (Fallthrough, (m3, h ++ [n3])))
  /\ (v3 = 0 ->
      CHECK true (call_at n3 f3) (lit Y) (m, h)
      = (Returned ERR_FAILURE,
         (mkMem Y (g_current_error_group m3) 0 (world m3), h ++ [n3]))).
Proof.
  intros HX HX0 HY HYX Hf Harmed fired Hf2 Hkeep Hf3 Harmed3.
  unfold ERR_NONE in HX0.
  assert (HYX' : (X =? Y) = false) by (apply Z.eqb_neq; congruence).
  assert (H3 : CHECK true (call_at n3 f3) (lit Y) (m, h)
               = if v3 =? 0
                 then (Returned ERR_FAILURE,
                       (mkMem Y (g_current_error_group m3) 0 (world m3),
                        h ++ [n3]))
                 else (Fallthrough, (m3, h ++ [n3]))).
  { rewrite (CHECK_injection_call_at n3 f3 (lit Y) (m, h) v3 m3 Hf3).
    unfold lit. rewrite Harmed3, HYX', orb_false_r. cbn [evaluated snd].
    destruct (v3 =? 0); [|reflexivity]. now rewrite failure_state_fields. }
  repeat split.
  - rewrite (CHECK_injection_call_at n f (lit X) (m, h) v m1 Hf).
    unfold lit. rewrite Harmed, Z.eqb_refl, orb_true_r.
    cbn [evaluated snd]. now rewrite failure_state_fields.
  - rewrite (CHECK_injection_call_at n2 f2 (lit X) fired v2 m2 Hf2).
    rewrite (CHECK_standard_call_at n2 f2 (lit X) fired v2 m2 Hf2).
    unfold lit. rewrite Hkeep. cbn [fired mem_of fst g_inject_error_flag].
    assert (HX0' : (0 =? X) = false) by (apply Z.eqb_neq; congruence).
    rewrite HX0', orb_false_r.
    destruct (v2 =? 0); [|reflexivity].
    rewrite !failure_state_fields by assumption.
    rewrite Hkeep. reflexivity.
  - rewrite H3.
    rewrite (CHECK_standard_call_at n3 f3 (lit Y) (m, h) v3 m3 Hf3).
    now destruct (v3 =? 0).
  - intros Hv. apply Z.eqb_neq in Hv. now rewrite H3, Hv.
  - intros Hv. subst v3. exact H3.
Qed.

Lemma armed_trigger_and_checks_of_either_code_witness :
  let f := Runtime.radio_start in
  let f3 := BasicUsage.init_radio in
  let m := mem_of (arm 1 (startup 0)) in
  let m1 := snd (f m) in
  let fired := (mkMem 1 (g_current_error_group m1) 0 (world m1),
                [] ++ [1%nat]) in
  let m2 := snd (f (mem_of fired)) in
  let m3 := snd (f3 m) in
  CHECK true (call_at 1 f) (lit 1) (m, []) = (Returned ERR_FAILURE, fired)
  /\ g_inject_error_flag (mem_of fired) = 0
  /\ CHECK true (call_at 2 f) (lit 1) fired
     = CHECK false (call_at 2 f) (lit 1) fired
  /\ exits_early (fst (CHECK true (call_at 3 f3) (lit 3) (m, [])))
     = exits_early (fst (CHECK false (call_at 3 f3) (lit 3) (m, [])))
  /\ (0 <> 0 ->
      CHECK true (call_at 3 f3) (lit 3) (m, [])
      = (Fallthrough, (m3, [] ++ [3%nat])))
  /\ (0 = 0 ->
      CHECK true (call_at 3 f3) (lit 3) (m, [])
      = (Returned ERR_FAILURE,
         (mkMem 3 (g_current_error_group m3) 0 (world m3), [] ++ [3%nat]))).
Proof.
  intros f f3 m m1 fired m2 m3.
  apply (armed_trigger_and_checks_of_either_code
           1%nat 2%nat 3%nat f f f3 1 3 1 1 0 m m1 m2 m3 []).
  - unfold is_err_t, is_uint8. lia.
  - discriminate.
  - unfold is_err_t, is_uint8. lia.
  - discriminate.
  - reflexivity.
  - reflexivity.
  - reflexivity.
  - reflexivity.
  - reflexivity.
  - reflexivity.
Defined.

(** C4: the code loses an armed trigger to an unrelated failure.  The
    README (step 6) and the header comment of fault_injection_runtime.c say
    that once the trigger is set to a code, the next [CHECK] with that code
    fails.  Here the trigger is armed with code 1; a check of code 2 whose
    call really fails takes the failure branch, and line 57 sets the trigger
    to 0 although the injection did not fire; the next check of code 1,
    whose call succeeds, then falls through.  The arming forced no check at
    all, and a check of another code changed the trigger. *)
Theorem C4_armed_trigger_is_lost_to_an_unrelated_failure :
  let armed := arm 1 (startup 0) in
  let first := CHECK true (call_at 1 BasicUsage.init_radio) (lit 2) armed in
  let second := CHECK true (call_at 2 Runtime.radio_start) (lit 1)
                  (snd first) in
  g_inject_error_flag (mem_of armed) = 1
  /\ fst first = Returned ERR_FAILURE
  /\ g_last_error (mem_of (snd first)) = 2
  /\ g_inject_error_flag (mem_of (snd first)) = 0
  /\ g_inject_error_flag (mem_of (snd first))
     <> g_inject_error_flag (mem_of armed)
  /\ fst second = Fallthrough.
Proof.
  repeat split; try reflexivity. discriminate.
Qed.

(** C9: in a build with runtime injection every check that takes the
    failure branch leaves the trigger at 0.  In particular, with the trigger
    armed with [X], a check of another code [Y] whose call really fails
    returns [ERR_FAILURE] with [g_last_error] equal to [Y] and the trigger
    cleared, and a later check of code [X] whose call succeeds and does not
    touch the trigger falls through: the armed injection never fired. *)
Theorem C9_any_failure_clears_the_trigger
    {W : Type} (pre rest : stmt W) (n n' : site) (f f' : op W) (X Y v' : Z)
    (s0 : state W) (m m1 m2 : mem W) (h : list site) :
  is_err_t X -> is_err_t Y -> X <> ERR_NONE -> Y <> X ->
  pre s0 = (Fallthrough, (m, h)) ->
  f m = (0, m1) ->
  g_inject_error_flag m1 = X ->
  let cleared := (mkMem Y (g_current_error_group m1) 0 (world m1), h ++ [n]) in
  f' (mem_of cleared) = (v', m2) -> v' <> 0 ->
  g_inject_error_flag m2 = g_inject_error_flag (mem_of cleared) ->
  (pre ;; CHECK true (call_at n f) (lit Y) ;; rest) s0
    = (Returned ERR_FAILURE, cleared)
  /\ g_last_error (mem_of cleared) = Y
  /\ g_inject_error_flag (mem_of cleared) = 0
  /\ CHECK true (call_at n' f') (lit X) cleared
     = (Fallthrough, (m2, (h ++ [n]) ++ [n']))
  /\ (forall (call : expr W Z) (err_flag : rvalue W) (s : state W),
        exits_early (fst (CHECK true call err_flag s)) = true ->
        g_inject_error_flag (mem_of (snd (CHECK true call err_flag s))) = 0).
Proof.
  intros HX HY HX0 HYX Hpre Hf Harmed cleared Hf' Hv' Hkeep.
  unfold ERR_NONE in HX0.
  repeat split.
  - rewrite (seq_fallthrough _ _ _ _ Hpre). apply seq_returned.
    rewrite (CHECK_zero true (call_at n f) (lit Y) (m, h) (m1, h ++ [n])
               (call_at_run n f (m, h) 0 m1 Hf)).
    unfold lit. now rewrite failure_state_fields.
  - rewrite (CHECK_injection_call_at n' f' (lit X) cleared v' m2 Hf').
    unfold lit. rewrite Hkeep. cbn [cleared mem_of fst g_inject_error_flag].
    apply Z.eqb_neq in Hv'. rewrite Hv'.
    assert (HX0' : (0 =? X) = false) by (apply Z.eqb_neq; congruence).
    now rewrite HX0'.
  - intros call err_flag s. simpl. rewrite CHECK_injection_run.
    destruct (call s) as [v s1]. destruct (_ || _); [reflexivity|discriminate].
Qed.

Lemma C9_witness :
  let pre := skip in
  let rest := RETURN ERR_NONE in
  let f := BasicUsage.init_radio in
  let f' := Runtime.radio_start in
  let s0 := arm 1 (startup 0) in
  let m1 := snd (f (mem_of s0)) in
  let cleared := (mkMem 3 (g_current_error_group m1) 0 (world m1),
                  [] ++ [1%nat]) in
  let m2 := snd (f' (mem_of cleared)) in
  (pre ;; CHECK true (call_at 1 f) (lit 3) ;; rest) s0
    = (Returned ERR_FAILURE, cleared)
  /\ g_last_error (mem_of cleared) = 3
  /\ g_inject_error_flag (mem_of cleared) = 0
  /\ CHECK true (call_at 2 f') (lit 1) cleared
     = (Fallthrough, (m2, ([] ++ [1%nat]) ++ [2%nat]))
  /\ (forall (call : expr stdout Z) (err_flag : rvalue stdout)
             (s : state stdout),
        exits_early (fst (CHECK true call err_flag s)) = true ->
        g_inject_error_flag (mem_of (snd (CHECK true call err_flag s))) = 0).
Proof.
  intros pre rest f f' s0 m1 cleared m2.
  apply (C9_any_failure_clears_the_trigger
           pre rest 1%nat 2%nat f f' 1 3 1 s0 (mem_of s0) m1 m2 []).
  - unfold is_err_t, is_uint8. lia.
  - unfold is_err_t, is_uint8. lia.
  - discriminate.
  - discriminate.
  - reflexivity.
  - reflexivity.
  - reflexivity.
  - reflexivity.
  - discriminate.
  - reflexivity.
Defined.

(** C10: in a build with runtime injection a check whose code is
    [ERR_NONE] takes the failure branch whenever the trigger reads 0 at the
    test, whatever the call yielded, success included: the unarmed trigger
    equals the code.  [g_last_error] becomes 0 and the enclosing function
    returns [ERR_FAILURE]. *)
Theorem C10_code_none_fails_when_unarmed
    {W : Type} (pre rest : stmt W) (call : expr W Z) (v : Z)
    (s0 s s1 : state W) :
  pre s0 = (Fallthrough, s) ->
  call s = (v, s1) ->
  g_inject_error_flag (mem_of s1) = 0 ->
  (pre ;; CHECK true call (lit ERR_NONE) ;; rest) s0
    = (Returned ERR_FAILURE, failure_state true ERR_NONE s1)
  /\ g_last_error (mem_of (failure_state true ERR_NONE s1)) = 0.
Proof.
  intros Hpre Hcall Hflag. split; [|reflexivity].
  rewrite (seq_fallthrough _ _ _ _ Hpre). apply seq_returned.
  simpl. rewrite CHECK_injection_run, Hcall. unfold lit.
  rewrite Hflag. now rewrite orb_true_r.
Qed.

Lemma C10_witness :
  let pre := PRINTF "Starting initialization..." in
  let rest := PRINTF "Radio initialized successfully!" ;; RETURN ERR_NONE in
  let call := call_at 61 Runtime.radio_start in
  let s := snd (pre (startup 0)) in
  let s1 := snd (call s) in
  (pre ;; CHECK true call (lit ERR_NONE) ;; rest) (startup 0)
    = (Returned ERR_FAILURE, failure_state true ERR_NONE s1)
  /\ g_last_error (mem_of (failure_state true ERR_NONE s1)) = 0.
Proof.
  intros pre rest call s s1.
  apply (C10_code_none_fails_when_unarmed
           pre rest call 1 (startup 0) s s1).
  - reflexivity.
  - reflexivity.
  - reflexivity.
Defined.

(** ** Runs of checks *)

Section Runs.

Context {W : Type}.

Implicit Types (s : state W) (m : mem W) (cs : list (site * op W * Z)).

(** One check of a run, by whether it passes. *)
Lemma CHECK_by_check_passes rt n (f : op W) e s :
  CHECK rt (call_at n f) (lit e) s =
  if check_passes rt (n, f, e) (mem_of s)
  then (Fallthrough, (snd (f (mem_of s)), evaluated s ++ [n]))
  else (Returned ERR_FAILURE,
        failure_state rt e (snd (f (mem_of s)), evaluated s ++ [n])).
Proof.
  unfold check_passes, op_of, code_of. cbn [fst snd].
  destruct (f (mem_of s)) as [v m1] eqn:Hf. cbn [fst snd].
  destruct rt.
  - rewrite (CHECK_injection_call_at n f (lit e) s v m1 Hf). unfold lit.
    cbn [andb]. now destruct (_ || _).
  - rewrite (CHECK_standard_call_at n f (lit e) s v m1 Hf). unfold lit.
    cbn [andb]. rewrite orb_false_r. now destruct (v =? 0).
Qed.

Lemma run_ops_app cs1 cs2 m :
  run_ops (cs1 ++ cs2) m = run_ops cs2 (run_ops cs1 m).
Proof.
  revert m. induction cs1 as [|c cs1 IH]; intros m; [reflexivity|].
  simpl. apply IH.
Qed.

Lemma all_pass_app rt cs1 cs2 m :
  all_pass rt (cs1 ++ cs2) m
  = all_pass rt cs1 m && all_pass rt cs2 (run_ops cs1 m).
Proof.
  revert m. induction cs1 as [|c cs1 IH]; intros m; [reflexivity|].
  simpl. rewrite IH. now rewrite andb_assoc.
Qed.

(** A run whose checks all pass falls through, in the memory the operations
    produced and with every site evaluated once, in order. *)
Lemma CHECK_each_all_pass rt cs s :
  all_pass rt cs (mem_of s) = true ->
  CHECK_each rt cs s
  = (Fallthrough, (run_ops cs (mem_of s), evaluated s ++ map site_of cs)).
Proof.
  revert s. induction cs as [|[[n f] e] cs IH]; intros s Hall.
  - simpl. rewrite app_nil_r. now destruct s.
  - simpl in Hall. apply andb_prop in Hall as [Hc Hrest].
    cbn [CHECK_each]. unfold seq.
    rewrite CHECK_by_check_passes, Hc.
    rewrite (IH (snd (f (mem_of s)), evaluated s ++ [n]) Hrest).
    cbn [mem_of evaluated fst snd map site_of run_ops op_of].
    now rewrite <- app_assoc.
Qed.

(** A run in which some check does not pass stops at the first such check:
    the checks before it passed, it took the failure branch in the memory
    the operations up to and including its own produced, and no later site
    was evaluated. *)
Lemma CHECK_each_first_failure rt cs s :
  all_pass rt cs (mem_of s) = false ->
  exists pre c post,
    cs = pre ++ c :: post
    /\ all_pass rt pre (mem_of s) = true
    /\ check_passes rt c (run_ops pre (mem_of s)) = false
    /\ CHECK_each rt cs s
       = (Returned ERR_FAILURE,
          failure_state rt (code_of c)
            (run_ops (pre ++ [c]) (mem_of s),
             evaluated s ++ map site_of (pre ++ [c]))).
Proof.
  revert s. induction cs as [|[[n f] e] cs IH]; intros s Hall.
  - discriminate.
  - simpl in Hall. destruct (check_passes rt (n, f, e) (mem_of s)) eqn:Hc.
    + cbn [andb] in Hall.
      destruct (IH (snd (f (mem_of s)), evaluated s ++ [n]) Hall)
        as (pre & c & post & Hcs & Hpre & Hfail & Hrun).
      exists ((n, f, e) :: pre), c, post. repeat split.
      * now rewrite Hcs.
      * simpl. now rewrite Hc.
      * exact Hfail.
      * cbn [CHECK_each]. unfold seq.
        rewrite CHECK_by_check_passes, Hc, Hrun.
        cbn [mem_of evaluated fst snd map site_of run_ops op_of app].
        now rewrite <- app_assoc.
    + exists [], (n, f, e), cs. repeat split.
      * exact Hc.
      * cbn [CHECK_each]. unfold seq.
        now rewrite CHECK_by_check_passes, Hc.
Qed.

End Runs.

(** ** Further properties of the macros *)

(** X1: whatever the build, the call and the code, a check touches nothing
    but [g_last_error] and, in a build with runtime injection, the trigger.
    Field by field, from the state the call left: the world and
    [g_current_error_group] are unchanged and no further call site is
    evaluated; [g_last_error] changes only when the check leaves the
    function, to the code; the trigger changes only when an injectable check
    leaves the function, to 0. *)
Theorem check_frame
    {W : Type} (rt : bool) (call : expr W Z) (err_flag : rvalue W) (v : Z)
    (s s1 : state W) :
  call s = (v, s1) ->
  let r := CHECK rt call err_flag s in
  world (mem_of (snd r)) = world (mem_of s1)
  /\ g_current_error_group (mem_of (snd r)) = g_current_error_group (mem_of s1)
  /\ evaluated (snd r) = evaluated s1
  /\ g_last_error (mem_of (snd r))
     = (if exits_early (fst r) then to_err_t (err_flag (mem_of s1))
        else g_last_error (mem_of s1))
  /\ g_inject_error_flag (mem_of (snd r))
     = (if rt && exits_early (fst r) then 0
        else g_inject_error_flag (mem_of s1)).
Proof.
  intros Hcall r. subst r. destruct rt; simpl.
  - rewrite CHECK_injection_run, Hcall.
    destruct (_ || _); repeat split; reflexivity.
  - rewrite CHECK_standard_run, Hcall.
    destruct (_ =? _); repeat split; reflexivity.
Qed.

Lemma check_frame_witness :
  let s := arm 3 (startup 7) in
  let call := call_at 59 BasicUsage.init_radio in
  let r := CHECK true call (lit 3) s in
  world (mem_of (snd r)) = world (mem_of (snd (call s)))
  /\ g_current_error_group (mem_of (snd r))
     = g_current_error_group (mem_of (snd (call s)))
  /\ evaluated (snd r) = evaluated (snd (call s))
  /\ g_last_error (mem_of (snd r))
     = (if exits_early (fst r) then to_err_t (lit 3 (mem_of (snd (call s))))
        else g_last_error (mem_of (snd (call s))))
  /\ g_inject_error_flag (mem_of (snd r))
     = (if true && exits_early (fst r) then 0
        else g_inject_error_flag (mem_of (snd (call s)))).
Proof.
  intros s call.
  apply (check_frame true call (lit 3) 0 s (snd (call s))).
  reflexivity.
Defined.

(** X2: a run of checks that falls through has written nothing of its own:
    whatever the operations do, the memory is exactly what they produced,
    called once each in order, and every site was evaluated.  In particular,
    when the operations leave [g_last_error] alone, it still holds whatever
    it held before the run: success never clears an earlier error. *)
Theorem passing_run_leaves_the_operations_memory
    {W : Type} (rt : bool) (cs : list (site * op W * Z)) (s : state W) :
  fst (CHECK_each rt cs s) = Fallthrough ->
  snd (CHECK_each rt cs s)
    = (run_ops cs (mem_of s), evaluated s ++ map site_of cs)
  /\ (Forall (fun c => keeps g_last_error (op_of c)) cs ->
      g_last_error (mem_of (snd (CHECK_each rt cs s)))
      = g_last_error (mem_of s)).
Proof.
  intros Hft.
  assert (Hall : all_pass rt cs (mem_of s) = true).
  { destruct (all_pass rt cs (mem_of s)) eqn:E; [reflexivity|].
    destruct (CHECK_each_first_failure rt cs s E)
      as (pre & c & post & _ & _ & _ & Hrun).
    rewrite Hrun in Hft. discriminate. }
  rewrite (CHECK_each_all_pass rt cs s Hall). split; [reflexivity|].
  intros Hkeep. cbn [snd mem_of fst]. clear Hft Hall.
  generalize (mem_of s). induction Hkeep as [|c cs Hc _ IH]; intros m.
  - reflexivity.
  - simpl. rewrite IH. apply Hc.
Qed.

Lemma passing_run_leaves_the_operations_memory_witness :
  let cs := [ (57%nat, BasicUsage.init_power, 1);
              (58%nat, BasicUsage.init_sensor, 2) ] in
  let s := (set_g_last_error 3 (mem_of (startup 0)), []) in
  fst (CHECK_each false cs s) = Fallthrough
  /\ Forall (fun c => keeps g_last_error (op_of c)) cs
  /\ snd (CHECK_each false cs s)
     = (run_ops cs (mem_of s), evaluated s ++ map site_of cs)
  /\ g_last_error (mem_of (snd (CHECK_each false cs s)))
     = g_last_error (mem_of s).
Proof.
  intros cs s.
  assert (Hft : fst (CHECK_each false cs s) = Fallthrough) by reflexivity.
  assert (Hkeep : Forall (fun c => keeps g_last_error (op_of c)) cs)
    by (repeat constructor).
  split; [exact Hft|]. split; [exact Hkeep|].
  split.
  - exact (proj1 (passing_run_leaves_the_operations_memory false cs s Hft)).
  - exact (proj2 (passing_run_leaves_the_operations_memory false cs s Hft)
             Hkeep).
Defined.

(** X3: a run of checks that leaves the function returns [ERR_FAILURE] from
    the first check that does not pass.  The checks before it passed;
    [g_last_error] is that check's code (as an [err_t]); the history gained
    the sites up to and including that check's and none after it. *)
Theorem failing_run_reports_its_first_failure
    {W : Type} (rt : bool) (cs : list (site * op W * Z)) (s : state W) :
  exits_early (fst (CHECK_each rt cs s)) = true ->
  exists pre c post,
    cs = pre ++ c :: post
    /\ all_pass rt pre (mem_of s) = true
    /\ check_passes rt c (run_ops pre (mem_of s)) = false
    /\ fst (CHECK_each rt cs s) = Returned ERR_FAILURE
    /\ g_last_error (mem_of (snd (CHECK_each rt cs s))) = to_err_t (code_of c)
    /\ evaluated (snd (CHECK_each rt cs s))
       = evaluated s ++ map site_of pre ++ [site_of c].
Proof.
  intros Hexit.
  assert (Hall : all_pass rt cs (mem_of s) = false).
  { destruct (all_pass rt cs (mem_of s)) eqn:E; [|reflexivity].
    rewrite (CHECK_each_all_pass rt cs s E) in Hexit. discriminate. }
  destruct (CHECK_each_first_failure rt cs s Hall)
    as (pre & c & post & Hcs & Hpre & Hfail & Hrun).
  exists pre, c, post. rewrite Hrun. cbn [fst snd]. repeat split; trivial.
  - apply g_last_error_failure_state.
  - rewrite evaluated_failure_state. cbn [evaluated snd].
    now rewrite map_app.
Qed.

Lemma failing_run_reports_its_first_failure_witness :
  let cs := [ (57%nat, BasicUsage.init_power, 1);
              (59%nat, BasicUsage.init_radio, 3);
              (58%nat, BasicUsage.init_sensor, 2) ] in
  let s := startup 0 in
  exists pre c post,
    cs = pre ++ c :: post
    /\ all_pass false pre (mem_of s) = true
    /\ check_passes false c (run_ops pre (mem_of s)) = false
    /\ fst (CHECK_each false cs s) = Returned ERR_FAILURE
    /\ g_last_error (mem_of (snd (CHECK_each false cs s)))
       = to_err_t (code_of c)
    /\ evaluated (snd (CHECK_each false cs s))
       = evaluated s ++ map site_of pre ++ [site_of c].
Proof.
  intros cs s.
  apply (failing_run_reports_its_first_failure false cs s).
  reflexivity.
Defined.

(** X4: a function made of a run of checks followed by [return ERR_NONE;]
    always returns, and its result tells the two cases apart: it is
    [ERR_NONE], in the memory the operations produced, exactly when every
    check passed, and [ERR_FAILURE], in the state the failing check left,
    otherwise; the two values differ. *)
Theorem checked_sequence_returns_none_or_failure
    {W : Type} (rt : bool) (cs : list (site * op W * Z)) (s : state W) :
  (CHECK_each rt cs ;; RETURN ERR_NONE) s
    = (if all_pass rt cs (mem_of s)
       then (Returned ERR_NONE,
             (run_ops cs (mem_of s), evaluated s ++ map site_of cs))
       else (Returned ERR_FAILURE, snd (CHECK_each rt cs s)))
  /\ ERR_NONE <> ERR_FAILURE.
Proof.
  split; [|discriminate].
  destruct (all_pass rt cs (mem_of s)) eqn:E.
  - now rewrite (seq_fallthrough _ _ _ _ (CHECK_each_all_pass rt cs s E)).
  - destruct (CHECK_each_first_failure rt cs s E)
      as (pre & c & post & _ & _ & _ & Hrun).
    rewrite (seq_returned _ _ _ _ _ Hrun). now rewrite Hrun.
Qed.

Lemma set_g_inject_error_flag_unarmed {W : Type} (m : mem W) :
  g_inject_error_flag m = 0 -> set_g_inject_error_flag 0 m = m.
Proof. destruct m as [le gr fl w]. simpl. intros ->. reflexivity. Qed.

(** X5: compiled in but never armed, runtime injection changes nothing.  For
    a run of checks whose codes are not [ERR_NONE] and whose operations do
    not write the trigger, started with the trigger at 0, the injectable
    build and the standard build produce the same result and the same
    state. *)
Theorem unarmed_injection_build_behaves_as_standard
    {W : Type} (cs : list (site * op W * Z)) (s : state W) :
  g_inject_error_flag (mem_of s) = 0 ->
  Forall (fun c => code_of c <> ERR_NONE
                   /\ keeps g_inject_error_flag (op_of c)) cs ->
  CHECK_each true cs s = CHECK_each false cs s.
Proof.
  intros Hflag Hcs. revert s Hflag.
  induction Hcs as [|[[n f] e] cs [He Hkeep] _ IH]; intros s Hflag.
  - reflexivity.
  - unfold code_of, op_of, ERR_NONE in *. cbn [fst snd] in *.
    cbn [CHECK_each]. unfold seq. rewrite !CHECK_by_check_passes.
    assert (Hflag1 : g_inject_error_flag (snd (f (mem_of s))) = 0)
      by now rewrite Hkeep.
    assert (Hsame : check_passes true (n, f, e) (mem_of s)
                    = check_passes false (n, f, e) (mem_of s)).
    { unfold check_passes, code_of, op_of. cbn [fst snd andb].
      rewrite Hflag1.
      assert (E : (0 =? e) = false) by (apply Z.eqb_neq; congruence).
      now rewrite E. }
    rewrite Hsame. destruct (check_passes false (n, f, e) (mem_of s)).
    + now apply IH.
    + unfold failure_state. cbn [mem_of evaluated fst snd].
      now rewrite set_g_inject_error_flag_unarmed.
Qed.

Lemma unarmed_injection_build_behaves_as_standard_witness :
  let cs := [ (57%nat, BasicUsage.init_power, 1);
              (59%nat, BasicUsage.init_radio, 3);
              (58%nat, BasicUsage.init_sensor, 2) ] in
  CHECK_each true cs (startup 0) = CHECK_each false cs (startup 0).
Proof.
  intros cs.
  apply (unarmed_injection_build_behaves_as_standard cs (startup 0)).
  - reflexivity.
  - repeat constructor; discriminate.
Defined.

(** X7: a code that does not fit [err_t].  The failure branch stores it
    reduced modulo 256, so [g_last_error] is not the code the site named;
    and since the trigger is a [uint8_t] compared as an [int], a check with
    such a code can never be forced by injection: it leaves the function
    exactly when its call yields zero. *)
Theorem code_outside_err_t_is_truncated_and_never_injected
    {W : Type} (n : site) (f : op W) (e v : Z) (s : state W) (m1 : mem W) :
  f (mem_of s) = (v, m1) ->
  is_uint8 (g_inject_error_flag m1) ->
  ~ is_err_t e ->
  let r := CHECK true (call_at n f) (lit e) s in
  exits_early (fst r) = (v =? 0)
  /\ (v = 0 ->
      g_last_error (mem_of (snd r)) = e mod 256
      /\ g_last_error (mem_of (snd r)) <> e).
Proof.
  intros Hf Hfl He r. subst r.
  rewrite (CHECK_injection_call_at n f (lit e) s v m1 Hf). unfold lit.
  assert (E : (g_inject_error_flag m1 =? e) = false).
  { apply Z.eqb_neq. intros <-. now apply He. }
  rewrite E, orb_false_r. split.
  - now destruct (v =? 0).
  - intros ->. cbn [Z.eqb snd fst].
    rewrite g_last_error_failure_state. split; [reflexivity|].
    intros Heq. apply He. rewrite <- Heq.
    unfold is_err_t, is_uint8, to_err_t, to_uint8.
    apply Z.mod_pos_bound. lia.
Qed.

Lemma code_outside_err_t_is_truncated_and_never_injected_witness :
  let f := BasicUsage.init_radio in
  let s := arm 1 (startup 0) in
  let r := CHECK true (call_at 59 f) (lit 257) s in
  exits_early (fst r) = (0 =? 0)
  /\ (0 = 0 ->
      g_last_error (mem_of (snd r)) = 257 mod 256
      /\ g_last_error (mem_of (snd r)) <> 257).
Proof.
  intros f s.
  apply (code_outside_err_t_is_truncated_and_never_injected
           59%nat f 257 0 s (snd (f (mem_of s)))).
  - reflexivity.
  - cbv. split; [discriminate | reflexivity].
  - unfold is_err_t, is_uint8. lia.
Defined.

(** ** Grouped checks *)

Lemma g_current_error_group_failure_state {W : Type} rt e (s : state W) :
  g_current_error_group (mem_of (failure_state rt e s))
  = g_current_error_group (mem_of s).
Proof. destruct rt; reflexivity. Qed.

(** A run of grouped checks whose operations leave the group alone either
    falls through or returns [ERR_FAILURE] with the group's code recorded;
    the group itself is unchanged either way. *)
Lemma CHECK_SAME_each_outcome
    {W : Type} (rt : bool) (cs : list (site * op W)) (s : state W) :
  Forall (fun c => keeps g_current_error_group (snd c)) cs ->
  g_current_error_group (mem_of (snd (CHECK_SAME_each rt cs s)))
  = g_current_error_group (mem_of s)
  /\ (fst (CHECK_SAME_each rt cs s) = Fallthrough
      \/ (fst (CHECK_SAME_each rt cs s) = Returned ERR_FAILURE
          /\ g_last_error (mem_of (snd (CHECK_SAME_each rt cs s)))
             = to_err_t (g_current_error_group (mem_of s)))).
Proof.
  intros Hcs. revert s.
  induction Hcs as [|[n f] cs Hkeep _ IH]; intros s.
  - split; [reflexivity | now left].
  - cbn [snd] in Hkeep. cbn [CHECK_SAME_each]. unfold CHECK_SAME.
    destruct (f (mem_of s)) as [v m1] eqn:Hf.
    assert (Hm1 : g_current_error_group m1 = g_current_error_group (mem_of s)).
    { specialize (Hkeep (mem_of s)). now rewrite Hf in Hkeep. }
    destruct (CHECK_call_at_cases rt n f g_current_error_group s v m1 Hf)
      as [H|H].
    + rewrite (seq_fallthrough _ _ _ _ H).
      destruct (IH (m1, evaluated s ++ [n])) as [Hg Hout].
      cbn [mem_of fst] in Hg, Hout. rewrite Hm1 in Hg, Hout.
      now split.
    + rewrite (seq_returned _ _ _ _ _ H). cbn [fst snd]. split.
      * now rewrite g_current_error_group_failure_state.
      * right. split; [reflexivity|].
        now rewrite g_last_error_failure_state, Hm1.
Qed.

(** X8: in a run of grouped checks whose operations do not write
    [g_current_error_group], whichever check fails, the function returns
    [ERR_FAILURE] with [g_last_error] equal to the group's code as it was on
    entry, and the group is still that code afterwards. *)
Theorem grouped_run_reports_the_group
    {W : Type} (rt : bool) (cs : list (site * op W)) (G : Z) (s : state W) :
  is_err_t G ->
  g_current_error_group (mem_of s) = G ->
  Forall (fun c => keeps g_current_error_group (snd c)) cs ->
  exits_early (fst (CHECK_SAME_each rt cs s)) = true ->
  fst (CHECK_SAME_each rt cs s) = Returned ERR_FAILURE
  /\ g_last_error (mem_of (snd (CHECK_SAME_each rt cs s))) = G
  /\ g_current_error_group (mem_of (snd (CHECK_SAME_each rt cs s))) = G.
Proof.
  intros HG Hs Hcs Hexit.
  destruct (CHECK_SAME_each_outcome rt cs s Hcs) as [Hg [Hft|[Hret Hle]]].
  - rewrite Hft in Hexit. discriminate.
  - rewrite Hg, Hle, Hs. rewrite (to_err_t_id G HG). now repeat split.
Qed.

Lemma grouped_run_reports_the_group_witness :
  let cs := [ (49%nat, MultipleErrors.i2c_write);
              (50%nat, MultipleErrors.i2c_read);
              (53%nat, MultipleErrors.spi_test) ] in
  let s := startup 4 in
  fst (CHECK_SAME_each false cs s) = Returned ERR_FAILURE
  /\ g_last_error (mem_of (snd (CHECK_SAME_each false cs s))) = 4
  /\ g_current_error_group (mem_of (snd (CHECK_SAME_each false cs s))) = 4.
Proof.
  intros cs s.
  apply (grouped_run_reports_the_group false cs 4 s).
  - unfold is_err_t, is_uint8. lia.
  - reflexivity.
  - repeat constructor.
  - reflexivity.
Defined.

(** X9: the README's [i2c_init].  With drivers that do not write
    [g_current_error_group], it returns either [ERR_NONE] or [ERR_FAILURE];
    in the second case [g_last_error] is the group's code, whichever of the
    three calls failed; the group is unchanged. *)
Theorem readme_i2c_init_reports_the_group
    {W : Type} (i2c_master_enable : op W)
    (i2c_set_baudrate i2c_probe_slave : Z -> op W)
    (rt : bool) (G : Z) (s : state W) :
  is_err_t G ->
  g_current_error_group (mem_of s) = G ->
  keeps g_current_error_group i2c_master_enable ->
  keeps g_current_error_group (i2c_set_baudrate 400000) ->
  keeps g_current_error_group (i2c_probe_slave 0x50) ->
  let r := Readme.i2c_init i2c_master_enable i2c_set_baudrate
             i2c_probe_slave rt s in
  (fst r = Returned ERR_NONE
   \/ (fst r = Returned ERR_FAILURE /\ g_last_error (mem_of (snd r)) = G))
  /\ g_current_error_group (mem_of (snd r)) = G.
Proof.
  intros HG Hs H1 H2 H3 r.
  set (cs := [ (116%nat, i2c_master_enable);
               (117%nat, i2c_set_baudrate 400000);
               (118%nat, i2c_probe_slave 0x50) ]).
  assert (Hr : r = (CHECK_SAME_each rt cs ;; RETURN ERR_NONE) s).
  { unfold r, Readme.i2c_init, cs. cbn [CHECK_SAME_each]. unfold seq, skip.
    destruct (CHECK_SAME rt (call_at 116 i2c_master_enable) s)
      as [[|v1] s1]; [|reflexivity].
    destruct (CHECK_SAME rt (call_at 117 (i2c_set_baudrate 400000)) s1)
      as [[|v2] s2]; [|reflexivity].
    destruct (CHECK_SAME rt (call_at 118 (i2c_probe_slave 80)) s2)
      as [[|v3] s3]; reflexivity. }
  assert (Hcs : Forall (fun c => keeps g_current_error_group (snd c)) cs)
    by (repeat constructor; assumption).
  destruct (CHECK_SAME_each_outcome rt cs s Hcs) as [Hg Hout].
  clearbody r. subst r. unfold seq.
  destruct (CHECK_SAME_each rt cs s) as [[|v] s'].
  - cbn [fst snd] in *. split; [now left | now rewrite <- Hs].
  - cbn [fst snd] in *. destruct Hout as [Hft|[Hret Hle]]; [discriminate|].
    split; [right; split; [exact Hret|] | now rewrite <- Hs].
    rewrite Hle, Hs. now apply to_err_t_id.
Qed.

Lemma readme_i2c_init_reports_the_group_witness :
  let enable := MultipleErrors.i2c_write in
  let baud := fun _ : Z => MultipleErrors.i2c_write in
  let probe := fun _ : Z => MultipleErrors.i2c_read in
  let r := Readme.i2c_init enable baud probe true (startup 1) in
  (fst r = Returned ERR_NONE
   \/ (fst r = Returned ERR_FAILURE /\ g_last_error (mem_of (snd r)) = 1))
  /\ g_current_error_group (mem_of (snd r)) = 1.
Proof.
  intros enable baud probe.
  apply (readme_i2c_init_reports_the_group enable baud probe true 1
           (startup 1)).
  - unfold is_err_t, is_uint8. lia.
  - reflexivity.
  - intros m. reflexivity.
  - intros m. reflexivity.
  - intros m. reflexivity.
Defined.

(** ** The README's [device_init] *)

(** X10: the README's [device_init], for any drivers, always returns.  It
    returns [ERR_NONE] exactly when the four checks pass, each in the memory
    its predecessors left, and then the four drivers ran once each in
    source order; otherwise it returns [ERR_FAILURE] and [g_last_error] is
    one of [ERR_POWER], [ERR_SENSOR], [ERR_RADIO], [ERR_FLASH]. *)
Theorem readme_device_init_outcome
    {W : Type} (device_ptr sensor_ptr : Type)
    (sensor_field : device_ptr -> sensor_ptr) (power_on : Z -> op W)
    (sensor_init : sensor_ptr -> op W) (radio_begin flash_verify : op W)
    (rt : bool) (dev : device_ptr) (s : state W) :
  let checks := Readme.device_init_checks device_ptr sensor_ptr sensor_field
                  power_on sensor_init radio_begin flash_verify dev in
  let r := Readme.device_init device_ptr sensor_ptr sensor_field power_on
             sensor_init radio_begin flash_verify rt dev s in
  r = (if all_pass rt checks (mem_of s)
       then (Returned ERR_NONE,
             (run_ops checks (mem_of s),
              evaluated s ++ [100; 101; 102; 103]%nat))
       else (Returned ERR_FAILURE, snd r))
  /\ (fst r = Returned ERR_NONE
      \/ In (g_last_error (mem_of (snd r)))
            [Readme.ERR_POWER; Readme.ERR_SENSOR; Readme.ERR_RADIO;
             Readme.ERR_FLASH]).
Proof.
  intros checks r.
  assert (Hr : r = (CHECK_each rt checks ;; RETURN ERR_NONE) s).
  { unfold r, Readme.device_init, checks, Readme.device_init_checks.
    cbn [CHECK_each]. unfold seq, skip.
    repeat match goal with
           | |- context [CHECK rt ?c ?e ?st] =>
               destruct (CHECK rt c e st) as [[|?] ?]; try reflexivity
           end. }
  clearbody r. subst r.
  destruct (all_pass rt checks (mem_of s)) eqn:E.
  - rewrite (seq_fallthrough _ _ _ _ (CHECK_each_all_pass rt checks s E)).
    split; [reflexivity | now left].
  - destruct (CHECK_each_first_failure rt checks s E)
      as (pre & c & post & Hcs & _ & _ & Hrun).
    rewrite (seq_returned _ _ _ _ _ Hrun). cbn [fst snd].
    split; [reflexivity | right].
    rewrite g_last_error_failure_state.
    assert (Hin : In c checks) by (rewrite Hcs; apply in_elt).
    unfold checks, Readme.device_init_checks in Hin. simpl in Hin.
    destruct Hin as [<-|[<-|[<-|[<-|[]]]]]; cbv; tauto.
Qed.

(** ** The example functions, from any state *)

(** X11: [init] of fault_injection_runtime.c, from any state.  It fails
    exactly when the trigger holds [ERR_RADIO]; the radio driver runs in
    both cases; a failure records [ERR_RADIO] and clears the trigger, and a
    success writes neither.  Hence a second attempt right after the first
    always returns [ERR_NONE]: one arming costs one failed attempt. *)
Theorem runtime_init_fails_once_per_arming (s : state stdout) :
  let m := mem_of s in
  let out := world m ++ ["Starting initialization...";
                         "Radio hardware start → normally would succeed"]%string in
  Runtime.init s
  = (if g_inject_error_flag m =? Runtime.ERR_RADIO
     then (Returned ERR_FAILURE,
           (mkMem Runtime.ERR_RADIO (g_current_error_group m) 0 out,
            evaluated s ++ [61%nat]))
     else (Returned ERR_NONE,
           (mkMem (g_last_error m) (g_current_error_group m)
                  (g_inject_error_flag m)
                  (out ++ ["Radio initialized successfully!"%string]),
            evaluated s ++ [61%nat])))
  /\ fst (Runtime.init (snd (Runtime.init s))) = Returned ERR_NONE.
Proof.
  destruct s as [[le gr fl w] h]. cbv zeta.
  assert (H1 : forall le' fl' w' h',
             Runtime.init (mkMem le' gr fl' w', h')
             = if fl' =? Runtime.ERR_RADIO
               then (Returned ERR_FAILURE,
                     (mkMem Runtime.ERR_RADIO gr 0
                        (w' ++ ["Starting initialization...";
                                "Radio hardware start → normally would succeed"]%string),
                      h' ++ [61%nat]))
               else (Returned ERR_NONE,
                     (mkMem le' gr fl'
                        ((w' ++ ["Starting initialization...";
                                 "Radio hardware start → normally would succeed"]%string)
                         ++ ["Radio initialized successfully!"%string]),
                      h' ++ [61%nat]))).
  { intros le' fl' w' h'.
    unfold Runtime.init, seq, PRINTF, CHECK, CHECK_injection, DO_WHILE_0, IF,
      LOR, eq_zero, inject_flag_eq, call_at, Runtime.radio_start, print, lit,
      assign_g_last_error, assign_g_inject_error_flag, RETURN.
    cbn [mem_of evaluated fst snd g_last_error g_current_error_group
         g_inject_error_flag world Z.eqb].
    destruct (fl' =? Runtime.ERR_RADIO); simpl;
      rewrite <- !app_assoc; reflexivity. }
  cbn [mem_of fst g_last_error g_current_error_group g_inject_error_flag
       world evaluated snd].
  split; [apply H1|].
  rewrite H1. destruct (fl =? Runtime.ERR_RADIO) eqn:E; cbn [snd]; rewrite H1.
  - reflexivity.
  - now rewrite E.
Qed.

(** X12: [init] of fault_injection_compile_time.c, from any state.  Built
    with [INJECT_ERR_SENSOR] it returns [ERR_FAILURE] with [ERR_SENSOR]
    recorded, having printed its first line only: the calibration is never
    called.  Built without, it calls the calibration once and returns
    [ERR_NONE], and [g_last_error] keeps its earlier value. *)
Theorem compile_time_init_by_build
    (INJECT_ERR_SENSOR : bool) (s : state stdout) :
  let m := mem_of s in
  let started :=
    world m ++ ["Starting initialization with fault injection test..."%string] in
  CompileTime.init INJECT_ERR_SENSOR s
  = (if INJECT_ERR_SENSOR
     then (Returned ERR_FAILURE,
           (mkMem CompileTime.ERR_SENSOR (g_current_error_group m)
                  (g_inject_error_flag m) started,
            evaluated s))
     else (Returned ERR_NONE,
           (mkMem (g_last_error m) (g_current_error_group m)
                  (g_inject_error_flag m)
                  (started ++ ["IMU calibration: would normally pass";
                               "IMU calibration successful!"]%string),
            evaluated s ++ [66%nat]))).
Proof.
  destruct s as [[le gr fl w] h]. destruct INJECT_ERR_SENSOR.
  - reflexivity.
  - cbv zeta.
    unfold CompileTime.init, CompileTime.CHECK_SENSOR, seq, PRINTF, CHECK,
      CHECK_standard, DO_WHILE_0, IF, eq_zero, call_at,
      CompileTime.calibrate_imu, print, lit, RETURN.
    simpl. rewrite <- !app_assoc. reflexivity.
Qed.

(** X13: [bus_init] of multiple_errors.c, from any state and whatever
    [g_current_error_group] holds: the write passes, the read fails, and the
    function returns [ERR_FAILURE] with [ERR_I2C] recorded; the SPI and UART
    drivers are never called and the group is not changed. *)
Theorem bus_init_always_fails_with_i2c (s : state stdout) :
  let m := mem_of s in
  MultipleErrors.bus_init s
  = (Returned ERR_FAILURE,
     (mkMem MultipleErrors.ERR_I2C (g_current_error_group m)
            (g_inject_error_flag m)
            (world m ++ ["I2C write  → OK"; "I2C read   → FAILED"]%string),
      evaluated s ++ [49; 50]%nat)).
Proof.
  destruct s as [[le gr fl w] h]. cbv zeta.
  unfold MultipleErrors.bus_init, CHECK_SAME, seq, CHECK, CHECK_standard,
    DO_WHILE_0, IF, eq_zero, call_at, MultipleErrors.i2c_write,
    MultipleErrors.i2c_read, print, lit, assign_g_last_error, RETURN.
  simpl. rewrite <- !app_assoc. reflexivity.
Qed.

(** X14: [device_init] of basic_usage.c, from any state: power and sensor
    pass, the radio fails, and the function returns [ERR_FAILURE] with
    [ERR_RADIO] recorded after calling the three drivers once each in
    order; [return ERR_NONE] is never reached. *)
Theorem basic_device_init_always_fails_with_radio (s : state stdout) :
  let m := mem_of s in
  BasicUsage.device_init s
  = (Returned ERR_FAILURE,
     (mkMem BasicUsage.ERR_RADIO (g_current_error_group m)
            (g_inject_error_flag m)
            (world m ++ ["Power regulator: OK"; "Sensor: OK";
                         "Radio: FAILED"]%string),
      evaluated s ++ [57; 58; 59]%nat)).
Proof.
  destruct s as [[le gr fl w] h]. cbv zeta.
  unfold BasicUsage.device_init, seq, CHECK, CHECK_standard, DO_WHILE_0, IF,
    eq_zero, call_at, BasicUsage.init_power, BasicUsage.init_sensor,
    BasicUsage.init_radio, print, lit, assign_g_last_error, RETURN.
  simpl. rewrite <- !app_assoc. reflexivity.
Qed.

(** ** [RETURN_ERR] and the trigger; nesting *)

(** X15: [RETURN_ERR] is not redefined by the runtime-injection build, so
    unlike a failing check it leaves the trigger alone.  If the trigger
    holds [X] when a function leaves through [RETURN_ERR], it still holds
    [X] afterwards, and the next injectable check of code [X] whose
    operation does not write the trigger is forced to fail, whatever its
    call yields. *)
Theorem return_err_keeps_the_trigger_armed
    {W : Type} (pre rest : stmt W) (n : site) (f : op W) (X e v : Z)
    (s0 s : state W) (m1 : mem W) :
  pre s0 = (Fallthrough, s) ->
  g_inject_error_flag (mem_of s) = X ->
  let s1 := snd ((pre ;; RETURN_ERR (lit e) ;; rest) s0) in
  f (mem_of s1) = (v, m1) ->
  g_inject_error_flag m1 = g_inject_error_flag (mem_of s1) ->
  fst ((pre ;; RETURN_ERR (lit e) ;; rest) s0) = Returned ERR_FAILURE
  /\ g_inject_error_flag (mem_of s1) = X
  /\ fst (CHECK true (call_at n f) (lit X) s1) = Returned ERR_FAILURE
  /\ g_last_error (mem_of (snd (CHECK true (call_at n f) (lit X) s1)))
     = to_err_t X.
Proof.
  intros Hpre Harmed s1 Hf Hkeep.
  assert (Hrun : (pre ;; RETURN_ERR (lit e) ;; rest) s0
                 = (Returned ERR_FAILURE,
                    (set_g_last_error e (mem_of s), evaluated s))).
  { rewrite (seq_fallthrough _ _ _ _ Hpre). now apply seq_returned. }
  assert (Hs1 : g_inject_error_flag (mem_of s1) = X).
  { unfold s1. rewrite Hrun. exact Harmed. }
  rewrite Hrun. repeat split; trivial.
  - rewrite (CHECK_injection_call_at n f (lit X) s1 v m1 Hf). unfold lit.
    rewrite Hkeep, Hs1, Z.eqb_refl, orb_true_r. reflexivity.
  - rewrite (CHECK_injection_call_at n f (lit X) s1 v m1 Hf). unfold lit.
    rewrite Hkeep, Hs1, Z.eqb_refl, orb_true_r. cbn [snd].
    apply g_last_error_failure_state.
Qed.

Lemma return_err_keeps_the_trigger_armed_witness :
  let pre := PRINTF "Starting initialization..." in
  let rest := RETURN ERR_NONE in
  let f := Runtime.radio_start in
  let s0 := arm 1 (startup 0) in
  let s1 := snd ((pre ;; RETURN_ERR (lit 5) ;; rest) s0) in
  fst ((pre ;; RETURN_ERR (lit 5) ;; rest) s0) = Returned ERR_FAILURE
  /\ g_inject_error_flag (mem_of s1) = 1
  /\ fst (CHECK true (call_at 61 f) (lit 1) s1) = Returned ERR_FAILURE
  /\ g_last_error (mem_of (snd (CHECK true (call_at 61 f) (lit 1) s1)))
     = to_err_t 1.
Proof.
  intros pre rest f s0.
  apply (return_err_keeps_the_trigger_armed
           pre rest 61%nat f 1 5 1 s0 (snd (pre s0))
           (snd (f (mem_of (snd ((pre ;; RETURN_ERR (lit 5) ;; rest) s0)))))).
  - reflexivity.
  - reflexivity.
  - reflexivity.
  - reflexivity.
Defined.

(** A statement that returns does so from any place control can reach. *)
Lemma plug_returned {W : Type} (c : context W) (x : stmt W) (v : Z)
    (s0 s s' : state W) :
  reaches c s0 s ->
  x s = (Returned v, s') ->
  plug c x s0 = (Returned v, s').
Proof.
  intros Hreach Hx. revert s0 Hreach.
  induction c as [|pre c IH rest|cond c IH]; intros s0 Hreach; simpl in *.
  - now subst s0.
  - destruct Hreach as (s1 & Hpre & Hreach).
    rewrite (seq_fallthrough _ _ _ _ Hpre).
    apply seq_returned. now apply IH.
  - destruct Hreach as (s1 & Hcond & Hreach).
    unfold IF. rewrite Hcond. now apply IH.
Qed.

(** X16: the exit is not tied to where the macro stands.  Placed alone,
    between other statements, or inside the body of an [if], at any depth, a
    check whose call yields zero, once control reaches it, makes the
    enclosing function return [ERR_FAILURE] in the state the call left with
    the failure branch applied; none of the statements that follow, at any
    level, runs.  The same holds of [RETURN_ERR]. *)
Theorem failure_exits_from_any_nesting
    {W : Type} (rt : bool) (c : context W) (call : expr W Z) (e : Z)
    (s0 s s1 : state W) :
  reaches c s0 s ->
  call s = (0, s1) ->
  plug c (CHECK rt call (lit e)) s0
    = (Returned ERR_FAILURE, failure_state rt e s1)
  /\ plug c (RETURN_ERR (lit e)) s0
     = (Returned ERR_FAILURE, failure_state false e s).
Proof.
  intros Hreach Hcall. split.
  - apply (plug_returned c _ _ s0 s _ Hreach).
    exact (CHECK_zero rt call (lit e) s s1 Hcall).
  - now apply (plug_returned c _ _ s0 s _ Hreach).
Qed.

Lemma failure_exits_from_any_nesting_witness :
  let cond : expr stdout bool :=
    fun s => (g_current_error_group (mem_of s) =? 7, s) in
  let pre := PRINTF "Starting" in
  let c := Under cond (Between pre (Under cond Here) (PRINTF "after"))  in
  let call := call_at 59 BasicUsage.init_radio in
  let s := snd (pre (startup 7)) in
  plug c (CHECK true call (lit 3)) (startup 7)
    = (Returned ERR_FAILURE, failure_state true 3 (snd (call s)))
  /\ plug c (RETURN_ERR (lit 3)) (startup 7)
     = (Returned ERR_FAILURE, failure_state false 3 s).
Proof.
  intros cond pre c call s.
  apply (failure_exits_from_any_nesting
           true c call 3 (startup 7) s (snd (call s))).
  - simpl. exists (startup 7). split; [reflexivity|].
    exists s. split; [reflexivity|].
    exists s. split; reflexivity.
  - reflexivity.
Defined.
